(** * Event manager: registration rules of the Django event backend

    A shallow embedding of [events/models.py], [events/serializers.py],
    [events/views.py] and [events/emails.py].  The relational store is a
    record of tables (lists of rows), every ORM call is a function on that
    store, and a view is a function from the store to an outcome (a
    [Response], or a raised exception) and the store it leaves behind.
    Time is explicit: [now] stands for [timezone.now()] at the moment of the
    call. *)

From Stdlib Require Import List ZArith NArith Arith Bool Ascii String DecimalString.
From Stdlib Require Import Lia Permutation.
Import ListNotations.

Local Open Scope Z_scope.

(** ** models.py *)

Module models.

(** [django.contrib.auth.models.User], reduced to the columns the event
    application reads. *)
Record User := {
  id : nat;
  username : string;
  email : string
}.

(** [EventRegistration.STATUS_CHOICES]. *)
Inductive Status := confirmed | cancelled | waitlist.

Definition Status_eqb (a b : Status) : bool :=
  match a, b with
  | confirmed, confirmed | cancelled, cancelled | waitlist, waitlist => true
  | _, _ => false
  end.

(** A row of the [Event] table.  [organizer] is the foreign key (the
    organizer's user id); [max_attendees] is the nullable column. *)
Record Event := {
  pk : nat;
  title : string;
  description : string;
  date : Z;
  location : string;
  organizer : nat;
  max_attendees : option Z;
  created_at : Z;
  updated_at : Z
}.

(** A row of the [EventRegistration] table; [user_id] and [event_id] are
    the two foreign keys. *)
Record EventRegistration := {
  registration_pk : nat;
  user_id : nat;
  event_id : nat;
  status : Status;
  registered_at : Z;
  registration_updated_at : Z
}.

(** The store: both tables in insertion order and the two primary-key
    sequences. *)
Record Database := {
  events : list Event;
  registrations : list EventRegistration;
  event_seq : nat;
  registration_seq : nat
}.

(** The database backend of the connection, as far as the application
    depends on it: [connection.ops.integer_field_range] gives a
    [PositiveIntegerField] the range from 0 to [positive_integer_max].
    The bound differs from one backend to the next and the settings that
    choose the backend are not among the files embedded here, so it is a
    parameter. *)
Class Backend := {
  positive_integer_max : N
}.

Definition empty_database : Database :=
  {| events := []; registrations := []; event_seq := 1; registration_seq := 1 |}.

(** *** Query sets *)

(** [qs.exists()] and [qs.count()]. *)
Definition exists_ {A} (qs : list A) : bool :=
  match qs with [] => false | _ :: _ => true end.

Definition count {A} (qs : list A) : Z := Z.of_nat (List.length qs).

(** [Event.objects.filter(pk=pk).first()], the lookup behind
    [get_object]. *)
Definition events_get (key : nat) (db : Database) : option Event :=
  find (fun e => pk e =? key)%nat (events db).

(** [event.registrations], the reverse relation of the foreign key. *)
Definition event_registrations (event : Event) (db : Database) : list EventRegistration :=
  filter (fun r => event_id r =? pk event)%nat (registrations db).

(** [qs.filter(status=s)] and [qs.filter(user=u)]. *)
Definition filter_status (s : Status) (qs : list EventRegistration) : list EventRegistration :=
  filter (fun r => Status_eqb (status r) s) qs.

Definition filter_user (u : User) (qs : list EventRegistration) : list EventRegistration :=
  filter (fun r => user_id r =? id u)%nat qs.

(** [EventRegistration.objects.filter(user=user, event=event)]. *)
Definition objects_filter (user : User) (event : Event) (db : Database) : list EventRegistration :=
  filter (fun r => (user_id r =? id user)%nat && (event_id r =? pk event)%nat) (registrations db).

(** [EventRegistration.objects.get(user=user, event=event)]. *)
Inductive GetResult :=
| Got (r : EventRegistration)
| DoesNotExist
| MultipleObjectsReturned.

Definition objects_get (user : User) (event : Event) (db : Database) : GetResult :=
  match objects_filter user event db with
  | [] => DoesNotExist
  | [r] => Got r
  | _ :: _ :: _ => MultipleObjectsReturned
  end.

(** [Meta.unique_together = ['user', 'event']]: the constraint the store
    checks on every insert. *)
Definition violates_unique_together (u e : nat) (db : Database) : bool :=
  existsb (fun r => (user_id r =? u)%nat && (event_id r =? e)%nat) (registrations db).

(** [EventRegistration.objects.create(user=, event=, status=)]: [None] is
    the [IntegrityError] of the unique constraint; otherwise the new row
    takes the next primary key and both timestamps are [now]
    ([auto_now_add], [auto_now]). *)
Definition objects_create (now : Z) (user : User) (event : Event) (s : Status)
    (db : Database) : option (EventRegistration * Database) :=
  if violates_unique_together (id user) (pk event) db then None
  else
    let r := {| registration_pk := registration_seq db;
                user_id := id user;
                event_id := pk event;
                status := s;
                registered_at := now;
                registration_updated_at := now |} in
    Some (r, {| events := events db;
                registrations := registrations db ++ [r];
                event_seq := event_seq db;
                registration_seq := S (registration_seq db) |}).

(** [registration.delete()]: the row with that primary key goes. *)
Definition delete (r : EventRegistration) (db : Database) : Database :=
  {| events := events db;
     registrations :=
       filter (fun r' => negb (registration_pk r' =? registration_pk r)%nat) (registrations db);
     event_seq := event_seq db;
     registration_seq := registration_seq db |}.

(** *** Event *)

(** [Event.clean]: [Some msg] is the raised [ValidationError]. *)
Definition Event_clean (now : Z) (self : Event) : option string :=
  if date self <? now then Some "Event date cannot be in the past"%string else None.

(** [Event.attendees_count] *)
Definition attendees_count (self : Event) (db : Database) : Z :=
  count (filter_status confirmed (event_registrations self db)).

(** [Event.is_full] *)
Definition is_full (self : Event) (db : Database) : bool :=
  match max_attendees self with
  | None => false
  | Some m => attendees_count self db >=? m
  end.

(** [EventRegistration.clean], given the event the row points to. *)
Definition EventRegistration_clean (now : Z) (self : EventRegistration) (event : Event)
    : option string :=
  if (user_id self =? organizer event)%nat
  then Some "Organizer cannot register for their own event"%string
  else if date event <? now
  then Some "Cannot register for past events"%string
  else None.

End models.

Import models.

(** ** serializers.py *)

Module serializers.

(** What a validator does with a value: hand it back, or raise
    [serializers.ValidationError] with a message. *)
Inductive Validation (A : Type) :=
| Valid (value : A)
| ValidationError (msg : string).
Arguments Valid {A} value.
Arguments ValidationError {A} msg.

(** The request body of [EventCreateUpdateSerializer] once the framework
    has parsed its five [Meta.fields]; an absent or null [max_attendees]
    is [None]. *)
Record EventData := {
  data_title : string;
  data_description : string;
  data_date : Z;
  data_location : string;
  data_max_attendees : option Z
}.

(** The body of a partial update: only the keys that were sent. *)
Record EventPatch := {
  patch_title : option string;
  patch_description : option string;
  patch_date : option Z;
  patch_location : option string;
  patch_max_attendees : option (option Z)
}.

(** [EventCreateUpdateSerializer.validate_date] *)
Definition validate_date (now : Z) (value : Z) : Validation Z :=
  if value <? now then ValidationError "Event date cannot be in the past"
  else Valid value.

(** [EventCreateUpdateSerializer.validate_max_attendees] *)
Definition validate_max_attendees (value : option Z) : Validation (option Z) :=
  match value with
  | Some v => if v <=? 0 then ValidationError "Maximum attendees must be greater than 0"
              else Valid value
  | None => Valid value
  end.

(** One entry of [serializer.errors]: the field and its message. *)
Definition FieldError : Type := string * string.

(** *** The fields [ModelSerializer] builds from [models.py]

    A string stands for the Python [str] with the same code points, all
    below 256. *)

(** [str.isspace] on these characters. *)
Definition isspace (c : ascii) : bool :=
  let n := nat_of_ascii c in
  ((9 <=? n) && (n <=? 13) || (28 <=? n) && (n <=? 32) || (n =? 133) || (n =? 160))%nat.

Fixpoint lstrip (cs : list ascii) : list ascii :=
  match cs with
  | [] => []
  | c :: rest => if isspace c then lstrip rest else cs
  end.

(** [str.strip()] *)
Definition strip (data : string) : string :=
  string_of_list_ascii (rev (lstrip (rev (lstrip (list_ascii_of_string data))))).

(** What [field.run_validation] does with a value: hand back the cleaned
    value, or raise with the messages of every validator that failed. *)
Inductive Cleaned (A : Type) :=
| Clean (value : A)
| Invalid (messages : list string).
Arguments Clean {A} value.
Arguments Invalid {A} messages.

(** The serializer field of a [models.CharField(max_length=n)]
    ([Some n]) or a [models.TextField()] ([None]) that is neither [blank]
    nor [null]: a blank value is refused at once; otherwise the value is
    stripped and the length and null-character validators run on it. *)
Definition CharField (max_length : option nat) (data : string) : Cleaned string :=
  let value := strip data in
  match value with
  | EmptyString => Invalid ["This field may not be blank."%string]
  | String _ _ =>
      match
        match max_length with
        | Some n =>
            if (n <? String.length value)%nat
            then [("Ensure this field has no more than "
                   ++ NilZero.string_of_uint (Nat.to_uint n) ++ " characters.")%string]
            else []
        | None => []
        end ++
        (if existsb (fun c => (nat_of_ascii c =? 0)%nat) (list_ascii_of_string value)
         then ["Null characters are not allowed."%string]
         else [])
      with
      | [] => Clean value
      | messages => Invalid messages
      end
  end.

(** The serializer field of
    [models.PositiveIntegerField(null=True, blank=True)]: [None] passes,
    a number meets the two range validators of the backend. *)
Definition PositiveIntegerField {backend : Backend} (data : option Z)
    : Cleaned (option Z) :=
  match data with
  | None => Clean None
  | Some v =>
      match
        (if Z.of_N positive_integer_max <? v
         then [("Ensure this value is less than or equal to "
                ++ NilZero.string_of_uint (N.to_uint positive_integer_max) ++ ".")%string]
         else []) ++
        (if v <? 0
         then ["Ensure this value is greater than or equal to 0."%string]
         else [])
      with
      | [] => Clean (Some v)
      | messages => Invalid messages
      end
  end.

(** One turn of the loop of [to_internal_value]: the validation of the
    field itself and then, on the cleaned value only, the
    [validate_<field>] method of the serializer. *)
Definition run_field {A} (cleaned : Cleaned A) (validate : A -> Validation A) : Cleaned A :=
  match cleaned with
  | Invalid messages => Invalid messages
  | Clean value =>
      match validate value with
      | Valid value' => Clean value'
      | ValidationError msg => Invalid [msg]
      end
  end.

Definition messages_of {A} (field : string) (c : Cleaned A) : list FieldError :=
  match c with
  | Clean _ => []
  | Invalid messages => map (fun msg => (field, msg)) messages
  end.

(** [serializer.errors] after [is_valid()]: every field is validated and
    the failures are collected in the order of [Meta.fields]. *)
Definition errors {backend : Backend} (now : Z) (data : EventData) : list FieldError :=
  messages_of "title" (CharField (Some 200%nat) (data_title data)) ++
  messages_of "description" (CharField None (data_description data)) ++
  messages_of "date" (run_field (Clean (data_date data)) (validate_date now)) ++
  messages_of "location" (CharField (Some 300%nat) (data_location data)) ++
  messages_of "max_attendees"
    (run_field (PositiveIntegerField (data_max_attendees data)) validate_max_attendees).

(** [serializer.validated_data] of a body without errors: the text fields
    stripped. *)
Definition validated_data (data : EventData) : EventData :=
  {| data_title := strip (data_title data);
     data_description := strip (data_description data);
     data_date := data_date data;
     data_location := strip (data_location data);
     data_max_attendees := data_max_attendees data |}.

(** The same for a partial update, where only the fields whose key was
    sent are validated. *)
Definition patch_errors {backend : Backend} (now : Z) (patch : EventPatch)
    : list FieldError :=
  match patch_title patch with
  | Some v => messages_of "title" (CharField (Some 200%nat) v)
  | None => []
  end ++
  match patch_description patch with
  | Some v => messages_of "description" (CharField None v)
  | None => []
  end ++
  match patch_date patch with
  | Some d => messages_of "date" (run_field (Clean d) (validate_date now))
  | None => []
  end ++
  match patch_location patch with
  | Some v => messages_of "location" (CharField (Some 300%nat) v)
  | None => []
  end ++
  match patch_max_attendees patch with
  | Some m =>
      messages_of "max_attendees" (run_field (PositiveIntegerField m) validate_max_attendees)
  | None => []
  end.

Definition validated_patch (patch : EventPatch) : EventPatch :=
  {| patch_title := option_map strip (patch_title patch);
     patch_description := option_map strip (patch_description patch);
     patch_date := patch_date patch;
     patch_location := option_map strip (patch_location patch);
     patch_max_attendees := patch_max_attendees patch |}.

(** [EventRegistrationCreateSerializer.validate_event] for the
    authenticated [user] of the request. *)
Definition validate_event (now : Z) (user : User) (value : Event) (db : Database)
    : Validation Event :=
  if date value <? now then ValidationError "Cannot register for past events"
  else if (organizer value =? id user)%nat
  then ValidationError "Organizer cannot register for their own event"
  else if exists_ (objects_filter user value db)
  then ValidationError "You are already registered for this event"
  else if is_full value db
  then ValidationError "This event has reached maximum capacity"
  else Valid value.

(** [EventDetailSerializer.get_is_registered]; [request_user] is [None]
    when there is no request or its user is anonymous. *)
Definition get_is_registered (request_user : option User) (obj : Event) (db : Database) : bool :=
  match request_user with
  | Some u =>
      exists_ (filter (fun r => (user_id r =? id u)%nat && Status_eqb (status r) confirmed)
                      (event_registrations obj db))
  | None => false
  end.

End serializers.

Import serializers.

(** ** emails.py *)

Module emails.

Record EmailMessage := {
  subject : string;
  message : string;
  from_email : string;
  recipient_list : list string;
  html_message : string
}.

(** The mail transport behind [send_mail]: it delivers the message into
    the outbox, or raises. *)
Inductive Delivery := Delivered | SendFailed.

(** How a sender ends: it returns [True] or [False], or an exception
    leaves it. *)
Inductive SenderOutcome :=
| returns (ok : bool)
| raises.

Section Sender.

(** The collaborators the module imports: the transport, the template
    engine with [strip_tags], the date formatter and the configured
    sender address.  The engine, [strip_tags] and the formatter are called
    before the [try]; [None] is an exception raised by one of them. *)
Variable transport : EmailMessage -> Delivery.
Variable render_to_string : string -> User -> Event -> string -> option string.
Variable strip_tags : string -> option string.
Variable strftime : Z -> string -> option string.
Variable DEFAULT_FROM_EMAIL : string.

(** [send_mail(..., fail_silently=False)] run under the [try] of the
    two senders: [True] and one more message in the outbox, or [False]
    after the exception was caught and printed. *)
Definition try_send_mail (m : EmailMessage) (outbox : list EmailMessage)
    : SenderOutcome * list EmailMessage :=
  match transport m with
  | Delivered => (returns true, outbox ++ [m])
  | SendFailed => (returns false, outbox)
  end.

(** [send_registration_confirmation_email(user, event)] *)
Definition send_registration_confirmation_email (user : User) (event : Event)
    (outbox : list EmailMessage) : SenderOutcome * list EmailMessage :=
  let subject := ("Registration Confirmed: " ++ title event)%string in
  match strftime (date event) "%B %d, %Y at %I:%M %p" with
  | None => (raises, outbox)
  | Some event_date =>
      match render_to_string "emails/registration_confirmation.html" user event event_date
      with
      | None => (raises, outbox)
      | Some html_message =>
          match strip_tags html_message with
          | None => (raises, outbox)
          | Some plain_message =>
              try_send_mail {| subject := subject;
                               message := plain_message;
                               from_email := DEFAULT_FROM_EMAIL;
                               recipient_list := [email user];
                               html_message := html_message |} outbox
          end
      end
  end.

(** [send_unregistration_email(user, event)] *)
Definition send_unregistration_email (user : User) (event : Event)
    (outbox : list EmailMessage) : SenderOutcome * list EmailMessage :=
  let subject := ("Unregistered from: " ++ title event)%string in
  match strftime (date event) "%B %d, %Y at %I:%M %p" with
  | None => (raises, outbox)
  | Some event_date =>
      match render_to_string "emails/unregistration_confirmation.html" user event event_date
      with
      | None => (raises, outbox)
      | Some html_message =>
          match strip_tags html_message with
          | None => (raises, outbox)
          | Some plain_message =>
              try_send_mail {| subject := subject;
                               message := plain_message;
                               from_email := DEFAULT_FROM_EMAIL;
                               recipient_list := [email user];
                               html_message := html_message |} outbox
          end
      end
  end.

End Sender.

End emails.

(** ** views.py *)

Module views.

(** The payload of a [Response]. *)
Inductive Data :=
| RegistrationData (registration : EventRegistration)
| EventData_ (event : Event)
| message (text : string)
| error (text : string)
| no_content.

Record Response := {
  data : Data;
  status_code : Z
}.

Definition HTTP_200_OK : Z := 200.
Definition HTTP_201_CREATED : Z := 201.
Definition HTTP_204_NO_CONTENT : Z := 204.
Definition HTTP_400_BAD_REQUEST : Z := 400.

(** The exceptions a view lets escape.  The framework answers the first
    three with 404, 403 and 400; the last two are not handled anywhere
    and end the request with a server error. *)
Inductive Exception :=
| Http404
| PermissionDenied
| InvalidData (errors : list FieldError)
| IntegrityError
| MultipleObjects.

(** How a view ends. *)
Inductive Outcome :=
| Returns (response : Response)
| Raises (exc : Exception).

(** The error taxonomy of the specification, as the responses and field
    errors the code produces for them. *)
Definition OwnerSelfRegistration : Outcome :=
  Returns {| data := error "Organizer cannot register for their own event";
             status_code := HTTP_400_BAD_REQUEST |}.
Definition DuplicateRegistration : Outcome :=
  Returns {| data := error "You are already registered for this event";
             status_code := HTTP_400_BAD_REQUEST |}.
Definition CapacityExceeded : Outcome :=
  Returns {| data := error "This event has reached maximum capacity";
             status_code := HTTP_400_BAD_REQUEST |}.
Definition NotRegistered : Outcome :=
  Returns {| data := error "You are not registered for this event";
             status_code := HTTP_400_BAD_REQUEST |}.
Definition EventInPast : Outcome :=
  Returns {| data := error "Cannot register for past events";
             status_code := HTTP_400_BAD_REQUEST |}.
Definition PastDateError : FieldError :=
  ("date", "Event date cannot be in the past")%string.
(** [InvalidCapacityError] for a [max_attendees] that is not above 0: at 0
    the message is that of [validate_max_attendees]; below 0 the lower
    bound of the [PositiveIntegerField] answers before it. *)
Definition InvalidCapacityError (value : Z) : FieldError :=
  ("max_attendees"%string,
   if value <? 0 then "Ensure this value is greater than or equal to 0."%string
   else "Maximum attendees must be greater than 0"%string).

(** A view succeeded when it returned a 2xx response. *)
Definition succeeded (o : Outcome) : bool :=
  match o with
  | Returns r => (200 <=? status_code r) && (status_code r <? 300)
  | Raises _ => false
  end.

Definition failed (o : Outcome) : bool := negb (succeeded o).

(** [self.get_object()]: the event with that primary key, else [Http404]. *)
Definition get_object (key : nat) (db : Database) : option Event :=
  events_get key db.

(** Modelled from the spec: [permissions.IsOrganizerOrReadOnly], which
    [views.py] imports from [permissions.py], a module that is not among
    the files embedded here; the specification says update and delete are
    "only permitted when acting_user == event.organizer, else
    PermissionDenied". *)
Definition IsOrganizerOrReadOnly (user : User) (obj : Event) : bool :=
  (organizer obj =? id user)%nat.

(** [EventViewSet.create] for an authenticated [user]. *)
Definition create {backend : Backend} (now : Z) (user : User) (body : EventData)
    (db : Database) : Outcome * Database :=
  match errors now body with
  | [] =>
      let validated := validated_data body in
      let event := {| pk := event_seq db;
                      title := data_title validated;
                      description := data_description validated;
                      date := data_date validated;
                      location := data_location validated;
                      organizer := id user;
                      max_attendees := data_max_attendees validated;
                      created_at := now;
                      updated_at := now |} in
      (Returns {| data := EventData_ event; status_code := HTTP_201_CREATED |},
       {| events := events db ++ [event];
          registrations := registrations db;
          event_seq := S (event_seq db);
          registration_seq := registration_seq db |})
  | errs => (Raises (InvalidData errs), db)
  end.

(** [serializer.save()] on an existing instance: the sent keys replace the
    columns, [updated_at] is refreshed, the key and the organizer stay. *)
Definition apply_patch (now : Z) (patch : EventPatch) (instance : Event) : Event :=
  {| pk := pk instance;
     title := match patch_title patch with Some v => v | None => title instance end;
     description :=
       match patch_description patch with Some v => v | None => description instance end;
     date := match patch_date patch with Some v => v | None => date instance end;
     location := match patch_location patch with Some v => v | None => location instance end;
     organizer := organizer instance;
     max_attendees :=
       match patch_max_attendees patch with Some v => v | None => max_attendees instance end;
     created_at := created_at instance;
     updated_at := now |}.

(** [EventViewSet.partial_update] (the mixin of the framework).
    [EventViewSet.update] runs the same code with [partial=False]: it
    refuses a body that lacks a required key and, on a body it accepts,
    does what is written here. *)
Definition partial_update {backend : Backend} (now : Z) (user : User) (key : nat)
    (patch : EventPatch) (db : Database) : Outcome * Database :=
  match get_object key db with
  | None => (Raises Http404, db)
  | Some instance =>
      if negb (IsOrganizerOrReadOnly user instance) then (Raises PermissionDenied, db)
      else
        match patch_errors now patch with
        | [] =>
            let event := apply_patch now (validated_patch patch) instance in
            (Returns {| data := EventData_ event; status_code := HTTP_200_OK |},
             {| events := map (fun e => if (pk e =? key)%nat then event else e) (events db);
                registrations := registrations db;
                event_seq := event_seq db;
                registration_seq := registration_seq db |})
        | errs => (Raises (InvalidData errs), db)
        end
  end.

(** [EventViewSet.destroy]: the event goes, and with it every
    registration that points to it ([on_delete=models.CASCADE]). *)
Definition destroy (user : User) (key : nat) (db : Database) : Outcome * Database :=
  match get_object key db with
  | None => (Raises Http404, db)
  | Some instance =>
      if negb (IsOrganizerOrReadOnly user instance) then (Raises PermissionDenied, db)
      else
        (Returns {| data := no_content; status_code := HTTP_204_NO_CONTENT |},
         {| events := filter (fun e => negb (pk e =? key)%nat) (events db);
            registrations := filter (fun r => negb (event_id r =? key)%nat) (registrations db);
            event_seq := event_seq db;
            registration_seq := registration_seq db |})
  end.

(** [EventViewSet.register] for the authenticated [user] of the request and
    the event key of the URL. *)
Definition register (now : Z) (user : User) (key : nat) (db : Database)
    : Outcome * Database :=
  match get_object key db with
  | None => (Raises Http404, db)
  | Some event =>
      if (organizer event =? id user)%nat then (OwnerSelfRegistration, db)
      else if exists_ (objects_filter user event db) then (DuplicateRegistration, db)
      else if is_full event db then (CapacityExceeded, db)
      else
        match objects_create now user event confirmed db with
        | None => (Raises IntegrityError, db)
        | Some (registration, db') =>
            (Returns {| data := RegistrationData registration;
                        status_code := HTTP_201_CREATED |}, db')
        end
  end.

(** [EventViewSet.unregister]: only [DoesNotExist] is caught. *)
Definition unregister (user : User) (key : nat) (db : Database) : Outcome * Database :=
  match get_object key db with
  | None => (Raises Http404, db)
  | Some event =>
      match objects_get user event db with
      | Got registration =>
          (Returns {| data := message "Successfully unregistered from event";
                      status_code := HTTP_200_OK |},
           delete registration db)
      | DoesNotExist => (NotRegistered, db)
      | MultipleObjectsReturned => (Raises MultipleObjects, db)
      end
  end.

(** *** The requests that change the store *)

Inductive Request :=
| POST_events (user : User) (body : EventData)
| PATCH_event (user : User) (key : nat) (patch : EventPatch)
| DELETE_event (user : User) (key : nat)
| POST_register (user : User) (key : nat)
| POST_unregister (user : User) (key : nat).

Definition dispatch {backend : Backend} (now : Z) (request : Request) (db : Database)
    : Outcome * Database :=
  match request with
  | POST_events user body => create now user body db
  | PATCH_event user key patch => partial_update now user key patch db
  | DELETE_event user key => destroy user key db
  | POST_register user key => register now user key db
  | POST_unregister user key => unregister user key db
  end.

(** The stores the API can produce, starting from the empty one. *)
Inductive reachable {backend : Backend} : Database -> Prop :=
| reachable_empty : reachable empty_database
| reachable_step now request db :
    reachable db -> reachable (snd (dispatch now request db)).

(** The request cycle with the mail outbox next to the store.  No view
    imports [emails.py] or calls one of its senders, so a request leaves
    the outbox as it found it. *)
Record World := {
  database : Database;
  outbox : list emails.EmailMessage
}.

Definition serve {backend : Backend} (now : Z) (request : Request) (w : World)
    : Outcome * World :=
  let (o, db') := dispatch now request (database w) in
  (o, {| database := db'; outbox := outbox w |}).

End views.

Import views.

(** ** Register, one database statement at a time

    [register] sends four statements to the store: the [SELECT] of
    [get_object], the [exists()] query, the [count()] query of [is_full]
    and the [INSERT] of [create].  The view opens no transaction and takes
    no lock, so between two of them other requests may run.  A [Task] is a
    register request between two statements; the event it holds is the
    object it loaded, not the row of the store. *)

Module interleaving.

Inductive Task :=
| at_get_object (user : User) (key : nat)
| at_exists (user : User) (event : Event)
| at_is_full (user : User) (event : Event)
| at_create (user : User) (event : Event)
| finished (o : Outcome).

(** The next statement of a task. *)
Definition step (now : Z) (t : Task) (db : Database) : Task * Database :=
  match t with
  | at_get_object user key =>
      match get_object key db with
      | None => (finished (Raises Http404), db)
      | Some event =>
          if (organizer event =? id user)%nat then (finished OwnerSelfRegistration, db)
          else (at_exists user event, db)
      end
  | at_exists user event =>
      if exists_ (objects_filter user event db) then (finished DuplicateRegistration, db)
      else (at_is_full user event, db)
  | at_is_full user event =>
      if is_full event db then (finished CapacityExceeded, db)
      else (at_create user event, db)
  | at_create user event =>
      match objects_create now user event confirmed db with
      | None => (finished (Raises IntegrityError), db)
      | Some (registration, db') =>
          (finished (Returns {| data := RegistrationData registration;
                                status_code := HTTP_201_CREATED |}), db')
      end
  | finished o => (finished o, db)
  end.

(** A task run alone to its end. *)
Definition run_alone (now : Z) (t : Task) (db : Database) : Task * Database :=
  let (t1, db1) := step now t db in
  let (t2, db2) := step now t1 db1 in
  let (t3, db3) := step now t2 db2 in
  step now t3 db3.

Fixpoint set_nth {A} (i : nat) (x : A) (l : list A) : list A :=
  match l, i with
  | [], _ => []
  | _ :: rest, O => x :: rest
  | y :: rest, S j => y :: set_nth j x rest
  end.

(** Concurrent requests under a schedule: each entry names the task that
    sends its next statement. *)
Fixpoint run (now : Z) (schedule : list nat) (tasks : list Task) (db : Database)
    : list Task * Database :=
  match schedule with
  | [] => (tasks, db)
  | i :: rest =>
      match nth_error tasks i with
      | None => run now rest tasks db
      | Some t =>
          let (t', db') := step now t db in
          run now rest (set_nth i t' tasks) db'
      end
  end.

Definition outcome_of (t : Task) : option Outcome :=
  match t with
  | finished o => Some o
  | _ => None
  end.

End interleaving.

(** ** Properties of stores and the reading of the specification *)

(** The pair a registration is unique on. *)
Definition key_of (r : EventRegistration) : nat * nat := (user_id r, event_id r).

(** [unique_together]: no two rows for one (user, event) pair. *)
Definition unique_together (db : Database) : Prop :=
  NoDup (map key_of (registrations db)).

(** Referential integrity of the registration table. *)
Definition events_exist (db : Database) : Prop :=
  forall r, In r (registrations db) -> exists e, In e (events db) /\ pk e = event_id r.

(** No organizer is registered for an event of their own. *)
Definition no_owner_registration (db : Database) : Prop :=
  forall r e, In r (registrations db) -> In e (events db) ->
    pk e = event_id r -> organizer e <> user_id r.

(** Event keys come from the sequence, and no two events share one. *)
Definition keys_below_seq (db : Database) : Prop :=
  forall e, In e (events db) -> (pk e < event_seq db)%nat.

Definition keys_unique (db : Database) : Prop :=
  NoDup (map pk (events db)).

(** Only confirmed rows. *)
Definition all_confirmed (db : Database) : Prop :=
  forall r, In r (registrations db) -> status r = confirmed.

(** What every store the API reaches satisfies. *)
Record consistent (db : Database) : Prop := {
  consistent_unique : unique_together db;
  consistent_events : events_exist db;
  consistent_owner : no_owner_registration db;
  consistent_keys : keys_below_seq db;
  consistent_keys_unique : keys_unique db;
  consistent_status : all_confirmed db
}.

(** The rows of one (user, event) pair. *)
Definition same_pair (u e : nat) (r : EventRegistration) : bool :=
  (user_id r =? u)%nat && (event_id r =? e)%nat.

(** The number of registrations of (user, event) in the store. *)
Definition registrations_of (u e : nat) (db : Database) : nat :=
  List.length (filter (fun r => (user_id r =? u)%nat && (event_id r =? e)%nat)
                      (registrations db)).

(** The count of the capacity contract, following its words: the
    registrations for this event with status confirmed. *)
Fixpoint count_confirmed (event_key : nat) (rows : list EventRegistration) : Z :=
  match rows with
  | [] => 0
  | r :: rest =>
      (if (event_id r =? event_key)%nat && Status_eqb (status r) confirmed then 1 else 0)
      + count_confirmed event_key rest
  end.

(** The preconditions of register in the order of the specification, each
    with the error it fails with: ownership, duplication, capacity. *)
Definition preconditions (user : User) (event : Event) (db : Database)
    : list (bool * Outcome) :=
  [ ((organizer event =? id user)%nat, OwnerSelfRegistration);
    (exists_ (objects_filter user event db), DuplicateRegistration);
    (is_full event db, CapacityExceeded) ].

(** First failure wins. *)
Definition first_failure (checks : list (bool * Outcome)) : option Outcome :=
  option_map snd (find fst checks).

(** Register calls made one after the other, each run to its end before
    the next starts. *)
Fixpoint register_all (calls : list (Z * User)) (key : nat) (db : Database)
    : list Outcome * Database :=
  match calls with
  | [] => ([], db)
  | (now, user) :: rest =>
      let (o, db1) := register now user key db in
      let (os, db2) := register_all rest key db1 in
      (o :: os, db2)
  end.

(** The store with another registration table. *)
Definition set_registrations (rows : list EventRegistration) (db : Database) : Database :=
  {| events := events db;
     registrations := rows;
     event_seq := event_seq db;
     registration_seq := registration_seq db |}.

(** ** Sample data *)

Definition alice : User := {| id := 1; username := "alice"; email := "alice@example.com" |}.
Definition bob : User := {| id := 2; username := "bob"; email := "bob@example.com" |}.
Definition carol : User := {| id := 3; username := "carol"; email := "carol@example.com" |}.
Definition dave : User := {| id := 4; username := "dave"; email := "dave@example.com" |}.

(** An event of alice, held at time 100, with room for [seats]. *)
Definition meetup (seats : option Z) : Event :=
  {| pk := 1; title := "Meetup"; description := "Monthly meetup"; date := 100;
     location := "Library"; organizer := 1; max_attendees := seats;
     created_at := 10; updated_at := 10 |}.

Definition row (key user event : nat) (s : Status) : EventRegistration :=
  {| registration_pk := key; user_id := user; event_id := event; status := s;
     registered_at := 20; registration_updated_at := 20 |}.

Definition store (seats : option Z) (rows : list EventRegistration) : Database :=
  {| events := [meetup seats]; registrations := rows;
     event_seq := 2; registration_seq := S (List.length rows) |}.

(** Two requests for the last seat, their statements taken in turn. *)
Definition race_tasks : list interleaving.Task :=
  [interleaving.at_get_object bob 1; interleaving.at_get_object carol 1].
Definition race_schedule : list nat := [0; 1; 0; 1; 0; 1; 0; 1]%nat.

(** A backend with the range of the framework's base operations. *)
Definition sample_backend : Backend := {| positive_integer_max := 2147483647 |}.

(** The body of a create request. *)
Definition body (when : Z) (seats : option Z) : EventData :=
  {| data_title := "Meetup"; data_description := "Monthly meetup"; data_date := when;
     data_location := "Library"; data_max_attendees := seats |}.

(** Alice creates the meetup with one seat at time 10, bob registers at
    time 30. *)
Definition after_two_requests : Database :=
  snd (dispatch (backend := sample_backend) 30 (POST_register bob 1)
         (snd (dispatch (backend := sample_backend) 10
                 (POST_events alice (body 100 (Some 1))) empty_database))).

(** ** users/serializers.py *)

Module users.

(** [UserDetailSerializer.get_organized_events_count]:
    [obj.organized_events.count()]. *)
Definition get_organized_events_count (obj : User) (db : Database) : Z :=
  count (filter (fun e => (organizer e =? id obj)%nat) (events db)).

(** [UserDetailSerializer.get_registered_events_count]:
    [obj.event_registrations.filter(status='confirmed').count()]. *)
Definition get_registered_events_count (obj : User) (db : Database) : Z :=
  count (filter_status confirmed (filter_user obj (registrations db))).

End users.

(** ** The attendee list

    [EventViewSet.attendees] and [EventDetailSerializer.get_attendees] run
    the same query and list [reg.user] for each row of it.  The order of
    the rows is the store's answer to [ordering = ['-registered_at']],
    which leaves rows of equal time in any order: it is a parameter here,
    and so is the user table that resolves the foreign key. *)

Module attendee_list.

Section Query.

Variable order_by : list EventRegistration -> list EventRegistration.
Variable User_objects_get : nat -> User.

(** [event.registrations.filter(status='confirmed').select_related('user')] *)
Definition confirmed_registrations (event : Event) (db : Database) : list EventRegistration :=
  order_by (filter_status confirmed (event_registrations event db)).

(** [EventViewSet.attendees]: [[reg.user for reg in registrations]]. *)
Definition attendees (event : Event) (db : Database) : list User :=
  map (fun reg => User_objects_get (user_id reg)) (confirmed_registrations event db).

(** [EventDetailSerializer.get_attendees] *)
Definition get_attendees (obj : Event) (db : Database) : list User :=
  map (fun reg => User_objects_get (user_id reg)) (confirmed_registrations obj db).

End Query.

End attendee_list.

(** ** More properties of stores *)

(** Registration keys come from the sequence, and no two rows share
    one. *)
Definition rows_keyed (db : Database) : Prop :=
  NoDup (map registration_pk (registrations db))
  /\ forall r, In r (registrations db) -> (registration_pk r < registration_seq db)%nat.

(** No event holds more confirmed registrations than its
    [max_attendees]. *)
Definition within_capacity (db : Database) : Prop :=
  forall e m, In e (events db) -> max_attendees e = Some m -> attendees_count e db <= m.

(** The requests that leave every [max_attendees] as it is: all but a
    patch that sends the key. *)
Definition keeps_capacity (request : Request) : bool :=
  match request with
  | PATCH_event _ _ patch =>
      match patch_max_attendees patch with
      | Some _ => false
      | None => true
      end
  | _ => true
  end.

(** Whether the calls a sender makes before its [try] all return: the
    formatter on the date of the event, the template engine on the
    template of the sender, [strip_tags] on what the engine rendered. *)
Definition prepares (render : string -> User -> Event -> string -> option string)
    (strip_tags : string -> option string) (strftime : Z -> string -> option string)
    (template : string) (user : User) (event : Event) : bool :=
  match strftime (date event) "%B %d, %Y at %I:%M %p"%string with
  | None => false
  | Some event_date =>
      match render template user event event_date with
      | None => false
      | Some html =>
          match strip_tags html with
          | None => false
          | Some _ => true
          end
      end
  end.

(** A message of a sender for a user: for that user alone, from the
    configured address, under the given subject, its plain body cut from
    its HTML body. *)
Definition addressed (strip_tags : string -> option string) (sender title_line : string)
    (user : User) (m : emails.EmailMessage) : Prop :=
  emails.recipient_list m = [email user]
  /\ emails.from_email m = sender
  /\ emails.subject m = title_line
  /\ strip_tags (emails.html_message m) = Some (emails.message m).

(** Best effort, as the senders have it.  An exception leaves the sender
    exactly when a call before the [try] raised.  [False] means that the
    transport refused the message for the user; [True] means that it
    delivered it and that it is the one message added to the outbox; in
    every other case the outbox is as it was. *)
Definition best_effort (transport : emails.EmailMessage -> emails.Delivery)
    (strip_tags : string -> option string) (sender title_line : string)
    (user : User) (box : list emails.EmailMessage) (prepared : bool)
    (result : emails.SenderOutcome * list emails.EmailMessage) : Prop :=
  (fst result = emails.raises <-> prepared = false)
  /\ (fst result = emails.raises -> snd result = box)
  /\ (fst result = emails.returns false ->
      snd result = box
      /\ exists m, transport m = emails.SendFailed
                   /\ addressed strip_tags sender title_line user m)
  /\ (fst result = emails.returns true ->
      exists m, snd result = box ++ [m]
                /\ transport m = emails.Delivered
                /\ addressed strip_tags sender title_line user m).

(** Collaborators for the samples: a transport that refuses mail to
    carol, an engine that knows the two templates, a formatter that
    refuses dates before 0. *)
Definition sample_transport (m : emails.EmailMessage) : emails.Delivery :=
  match emails.recipient_list m with
  | [to] => if String.eqb to "carol@example.com"%string then emails.SendFailed else emails.Delivered
  | _ => emails.SendFailed
  end.

Definition sample_render (template : string) (user : User) (event : Event)
    (event_date : string) : option string :=
  if String.eqb template "emails/registration_confirmation.html"%string
     || String.eqb template "emails/unregistration_confirmation.html"%string
  then Some ("<p>" ++ username user ++ ", " ++ event_date ++ "</p>")%string
  else None.

Definition sample_strip_tags (html : string) : option string := Some (strip html).

Definition sample_strftime (when : Z) (format : string) : option string :=
  if when <? 0 then None else Some "January 01, 2030 at 10:00 AM"%string.

(** A user table for the samples: the user with a given id. *)
Definition sample_user (n : nat) : User :=
  {| id := n; username := "user"; email := "user@example.com" |}.

(** ** Proof steps *)

(** Open the clauses of [consistent]. *)
Ltac unfold_store_properties :=
  unfold unique_together, events_exist, no_owner_registration,
    keys_below_seq, keys_unique, all_confirmed in *.

(** From a non-empty [filter], its first row with what it satisfies. *)
Ltac first_of_filter E x Hin Hsat :=
  match type of E with
  | filter ?f ?l = x :: _ =>
      assert (Hin : In x (filter f l)) by (rewrite E; now left);
      apply filter_In in Hin as [Hin Hsat]
  end.

(** ** List facts used below *)

Lemma exists_false_iff {A} (f : A -> bool) (l : list A) :
  exists_ (filter f l) = false <-> forall x, In x l -> f x = false.
Proof.
  induction l as [|a l IH]; simpl.
  - split; [intros _ x [] | reflexivity].
  - destruct (f a) eqn:Fa; simpl.
    + split; [discriminate | intros H; rewrite <- Fa; apply H; now left].
    + rewrite IH. split.
      * intros H x [<- | Hx]; [assumption | now apply H].
      * intros H x Hx. apply H. now right.
Qed.

Lemma exists_true_iff {A} (f : A -> bool) (l : list A) :
  exists_ (filter f l) = true <-> exists x, In x l /\ f x = true.
Proof.
  split.
  - intros H. destruct (filter f l) as [|x q] eqn:E; [discriminate|].
    exists x. apply filter_In. rewrite E. now left.
  - intros [x Hx]. apply filter_In in Hx.
    destruct (filter f l); [destruct Hx | reflexivity].
Qed.

Lemma exists_existsb {A} (f : A -> bool) (l : list A) :
  existsb f l = exists_ (filter f l).
Proof.
  induction l as [|a l IH]; simpl; [reflexivity|].
  destruct (f a); simpl; [reflexivity | exact IH].
Qed.

Lemma NoDup_map_filter {A B} (f : A -> B) (g : A -> bool) (l : list A) :
  NoDup (map f l) -> NoDup (map f (filter g l)).
Proof.
  induction l as [|a l IH]; simpl; intros H; [constructor|].
  inversion H as [|? ? Hnotin Hnodup]; subst.
  destruct (g a); simpl; [constructor|]; auto.
  intros Hin. apply Hnotin. apply in_map_iff in Hin as [x [Hx Hin]].
  apply filter_In in Hin as [Hin _]. apply in_map_iff. eauto.
Qed.

Lemma NoDup_map_snoc {A B} (f : A -> B) (l : list A) (a : A) :
  NoDup (map f l) -> ~ In (f a) (map f l) -> NoDup (map f (l ++ [a])).
Proof.
  intros Hl Ha. rewrite map_app. simpl.
  apply NoDup_app; [assumption | repeat constructor; intros [] | ].
  intros x Hx [<- | []]. contradiction.
Qed.

(** *** The capacity evaluator *)

Lemma count_confirmed_attendees (event : Event) (db : Database) :
  attendees_count event db = count_confirmed (pk event) (registrations db).
Proof.
  unfold attendees_count, count, filter_status, event_registrations.
  induction (registrations db) as [|r rows IH]; simpl; [reflexivity|].
  destruct (event_id r =? pk event)%nat; simpl.
  - destruct (Status_eqb (status r) confirmed); cbn [List.length]; lia.
  - exact IH.
Qed.

(** C4. [is_full] is false for an event without [max_attendees], whatever
    the registrations; with [max_attendees = m] it is true exactly when the
    number of registrations of the event with status confirmed is at least
    [m]. *)
Theorem is_full_contract (event : Event) (db : Database) :
  (max_attendees event = None -> is_full event db = false) /\
  (forall m, max_attendees event = Some m ->
     (is_full event db = true <-> m <= count_confirmed (pk event) (registrations db))).
Proof.
  unfold is_full. split.
  - intros ->. reflexivity.
  - intros m ->. rewrite count_confirmed_attendees. rewrite Z.geb_le. reflexivity.
Qed.

Lemma is_full_contract_witness :
  is_full (meetup None) (store None [row 1 2 1 confirmed; row 2 3 1 confirmed]) = false /\
  (is_full (meetup (Some 2)) (store (Some 2) [row 1 2 1 confirmed; row 2 3 1 confirmed]) = true
   <-> 2 <= count_confirmed 1 [row 1 2 1 confirmed; row 2 3 1 confirmed]).
Proof.
  split.
  - apply (proj1 (is_full_contract (meetup None) _)). reflexivity.
  - apply (proj2 (is_full_contract (meetup (Some 2))
                    (store (Some 2) [row 1 2 1 confirmed; row 2 3 1 confirmed])) 2).
    reflexivity.
Defined.

(** *** The insert behind register *)

Lemma violates_unique_together_exists (user : User) (event : Event) (db : Database) :
  violates_unique_together (id user) (pk event) db = exists_ (objects_filter user event db).
Proof. apply exists_existsb. Qed.

Lemma objects_create_free (now : Z) (user : User) (event : Event) (s : Status) (db : Database) :
  exists_ (objects_filter user event db) = false ->
  exists r db', objects_create now user event s db = Some (r, db').
Proof.
  intros Hfree. unfold objects_create.
  rewrite violates_unique_together_exists, Hfree. eauto.
Qed.

Lemma objects_create_registrations now user event s db r db' :
  objects_create now user event s db = Some (r, db') ->
  registrations db' = registrations db ++ [r] /\ events db' = events db
  /\ event_seq db' = event_seq db
  /\ user_id r = id user /\ event_id r = pk event /\ status r = s
  /\ violates_unique_together (id user) (pk event) db = false.
Proof.
  unfold objects_create.
  destruct (violates_unique_together (id user) (pk event) db); [discriminate|].
  intros H. injection H as <- <-. simpl. auto 10.
Qed.

(** What a successful register leaves behind. *)
Lemma register_succeeded now user key db :
  succeeded (fst (register now user key db)) = true ->
  exists event r,
    get_object key db = Some event
    /\ organizer event <> id user
    /\ exists_ (objects_filter user event db) = false
    /\ is_full event db = false
    /\ objects_create now user event confirmed db = Some (r, snd (register now user key db))
    /\ fst (register now user key db)
       = Returns {| data := RegistrationData r; status_code := HTTP_201_CREATED |}.
Proof.
  unfold register.
  destruct (get_object key db) as [event|]; [|discriminate].
  destruct (organizer event =? id user)%nat eqn:Ho; [discriminate|].
  destruct (exists_ (objects_filter user event db)) eqn:Hd; [discriminate|].
  destruct (is_full event db) eqn:Hf; [discriminate|].
  destruct (objects_create now user event confirmed db) as [[r db']|] eqn:Hc; [|discriminate].
  intros _. exists event, r. simpl.
  apply Nat.eqb_neq in Ho. auto 10.
Qed.

(** An eligible user gets in. *)
Lemma register_eligible now user key db event :
  get_object key db = Some event ->
  organizer event <> id user ->
  exists_ (objects_filter user event db) = false ->
  is_full event db = false ->
  succeeded (fst (register now user key db)) = true.
Proof.
  intros Hget Howner Hfree Hroom. unfold register. rewrite Hget.
  apply Nat.eqb_neq in Howner. rewrite Howner, Hfree, Hroom.
  destruct (objects_create_free now user event confirmed db Hfree) as [r [db' ->]].
  reflexivity.
Qed.

(** *** The order of the preconditions *)

(** C2. For an event that exists, register fails with the error of the
    first precondition that fails, in the order ownership, duplication,
    capacity, and leaves the store alone; it succeeds when none fails; and
    the organizer of the event gets [OwnerSelfRegistration] whatever the
    capacity and the registrations are. *)
Theorem register_first_failure (now : Z) (user : User) (key : nat) (db : Database)
    (event : Event) :
  get_object key db = Some event ->
  (forall err, first_failure (preconditions user event db) = Some err ->
     register now user key db = (err, db)) /\
  (first_failure (preconditions user event db) = None ->
     succeeded (fst (register now user key db)) = true) /\
  (organizer event = id user -> register now user key db = (OwnerSelfRegistration, db)).
Proof.
  intros Hget. unfold register, first_failure, preconditions. rewrite Hget. simpl.
  destruct (organizer event =? id user)%nat eqn:Ho; simpl.
  - repeat split; [intros err [= <-]; reflexivity | discriminate].
  - apply Nat.eqb_neq in Ho.
    destruct (exists_ (objects_filter user event db)) eqn:Hd; simpl.
    + repeat split; [intros err [= <-]; reflexivity | discriminate | contradiction].
    + destruct (is_full event db) eqn:Hf; simpl.
      * repeat split; [intros err [= <-]; reflexivity | discriminate | contradiction].
      * destruct (objects_create_free now user event confirmed db Hd) as [r [db' ->]].
        repeat split; [discriminate | contradiction].
Qed.

(** Alice, the organizer, asks to register for her own event, which is
    full and for which she already has a row. *)
Lemma register_first_failure_witness :
  register 50 alice 1 (store (Some 1) [row 1 1 1 confirmed])
    = (OwnerSelfRegistration, store (Some 1) [row 1 1 1 confirmed])
  /\ register 50 bob 1 (store (Some 1) [row 1 2 1 confirmed])
    = (DuplicateRegistration, store (Some 1) [row 1 2 1 confirmed])
  /\ register 50 carol 1 (store (Some 1) [row 1 2 1 confirmed])
    = (CapacityExceeded, store (Some 1) [row 1 2 1 confirmed]).
Proof.
  split; [|split].
  - apply (register_first_failure 50 alice 1 (store (Some 1) [row 1 1 1 confirmed])
             (meetup (Some 1))); reflexivity.
  - apply (register_first_failure 50 bob 1 (store (Some 1) [row 1 2 1 confirmed])
             (meetup (Some 1))); reflexivity.
  - apply (register_first_failure 50 carol 1 (store (Some 1) [row 1 2 1 confirmed])
             (meetup (Some 1))); reflexivity.
Defined.

(** *** Error paths *)

Lemma register_failed_unchanged now user key db :
  failed (fst (register now user key db)) = true -> snd (register now user key db) = db.
Proof.
  unfold register, failed.
  destruct (get_object key db) as [event|]; [|reflexivity].
  destruct (organizer event =? id user)%nat; [reflexivity|].
  destruct (exists_ (objects_filter user event db)); [reflexivity|].
  destruct (is_full event db); [reflexivity|].
  destruct (objects_create now user event confirmed db) as [[r db']|]; [|reflexivity].
  discriminate.
Qed.

Lemma unregister_failed_unchanged user key db :
  failed (fst (unregister user key db)) = true -> snd (unregister user key db) = db.
Proof.
  unfold unregister, failed.
  destruct (get_object key db) as [event|]; [|reflexivity].
  destruct (objects_get user event db); [discriminate | reflexivity | reflexivity].
Qed.

(** C10. When register or unregister ends in an error (any outcome other
    than a 2xx response, a raised exception included), the store after the
    call is the store before it. *)
Theorem error_paths_keep_store (now : Z) (user : User) (key : nat) (db : Database) :
  (failed (fst (register now user key db)) = true ->
     snd (register now user key db) = db) /\
  (failed (fst (unregister user key db)) = true ->
     snd (unregister user key db) = db).
Proof.
  split; [apply register_failed_unchanged | apply unregister_failed_unchanged].
Qed.

Lemma error_paths_keep_store_witness :
  snd (register 50 carol 1 (store (Some 1) [row 1 2 1 confirmed]))
    = store (Some 1) [row 1 2 1 confirmed]
  /\ snd (unregister carol 1 (store (Some 1) [row 1 2 1 confirmed]))
    = store (Some 1) [row 1 2 1 confirmed].
Proof.
  destruct (error_paths_keep_store 50 carol 1 (store (Some 1) [row 1 2 1 confirmed]))
    as [Hr Hu].
  split; [apply Hr | apply Hu]; reflexivity.
Defined.

(** *** One row per pair *)

Lemma same_pair_true u e r : same_pair u e r = true <-> key_of r = (u, e).
Proof.
  unfold same_pair, key_of. rewrite andb_true_iff, !Nat.eqb_eq.
  split; [intros [-> ->]; reflexivity | intros [= -> ->]; auto].
Qed.

Lemma unique_pair_filter (rows : list EventRegistration) (r : EventRegistration) :
  NoDup (map key_of rows) -> In r rows ->
  filter (same_pair (user_id r) (event_id r)) rows = [r].
Proof.
  induction rows as [|a rows IH]; simpl; intros Hnd Hin; [contradiction|].
  inversion Hnd as [|? ? Hnotin Hrest]; subst.
  destruct Hin as [-> | Hin].
  - replace (same_pair (user_id r) (event_id r) r) with true
      by (symmetry; apply same_pair_true; reflexivity).
    f_equal. destruct (filter (same_pair (user_id r) (event_id r)) rows) as [|x q] eqn:E;
      [reflexivity|].
    exfalso. apply Hnotin.
    first_of_filter E x Hx Hk. apply same_pair_true in Hk.
    apply in_map_iff. exists x. split; [exact Hk | exact Hx].
  - destruct (same_pair (user_id r) (event_id r) a) eqn:Ha.
    + exfalso. apply Hnotin. apply same_pair_true in Ha.
      apply in_map_iff. exists r. split; [symmetry; exact Ha | exact Hin].
    + now apply IH.
Qed.

Lemma unique_objects_filter (user : User) (event : Event) (db : Database)
    (r : EventRegistration) :
  unique_together db -> In r (registrations db) ->
  user_id r = id user -> event_id r = pk event ->
  objects_filter user event db = [r].
Proof.
  intros Hu Hin Huser Hevent. unfold objects_filter. rewrite <- Huser, <- Hevent.
  now apply (unique_pair_filter (registrations db) r).
Qed.

Lemma unique_together_delete (r : EventRegistration) (db : Database) :
  unique_together db -> unique_together (delete r db).
Proof. unfold unique_together, delete; simpl. apply NoDup_map_filter. Qed.

(** *** Unregister *)

Lemma filter_swap {A} (f g : A -> bool) (l : list A) :
  filter f (filter g l) = filter g (filter f l).
Proof.
  induction l as [|a l IH]; simpl; [reflexivity|].
  destruct (g a) eqn:Ga, (f a) eqn:Fa; simpl; rewrite ?Ga, ?Fa, IH; reflexivity.
Qed.

(** C5. For an existing event, unregister fails with [NotRegistered],
    changing nothing, when the user has no registration for it.  When the
    user has one, it answers 200 and removes that row from the table (no
    row is added or rewritten), after which no registration of the pair is
    left and [is_registered] is false.  In a store that keeps the unique
    constraint, a row of the pair that exists is that one. *)
Theorem unregister_contract (user : User) (key : nat) (db : Database) (event : Event) :
  get_object key db = Some event ->
  (objects_filter user event db = [] ->
     unregister user key db = (NotRegistered, db))
  /\ (forall r, objects_filter user event db = [r] ->
     unregister user key db
       = (Returns {| data := message "Successfully unregistered from event";
                     status_code := HTTP_200_OK |}, delete r db)
     /\ ~ In r (registrations (delete r db))
     /\ (forall r', In r' (registrations (delete r db)) -> In r' (registrations db))
     /\ objects_filter user event (delete r db) = []
     /\ get_is_registered (Some user) event (delete r db) = false)
  /\ (unique_together db ->
      forall r, In r (registrations db) -> user_id r = id user -> event_id r = pk event ->
      objects_filter user event db = [r]).
Proof.
  intros Hget. unfold unregister, objects_get. rewrite Hget. split; [|split].
  - intros ->. reflexivity.
  - intros r Hone. rewrite Hone.
    assert (Hgone : ~ In r (registrations (delete r db))).
    { unfold delete; simpl. rewrite filter_In, Nat.eqb_refl. intros [_ H]. discriminate. }
    assert (Hsub : forall r', In r' (registrations (delete r db)) -> In r' (registrations db)).
    { unfold delete; simpl. intros r' H. now apply filter_In in H. }
    assert (Hempty : objects_filter user event (delete r db) = []).
    { unfold objects_filter, delete in *; simpl.
      rewrite filter_swap, Hone. simpl. now rewrite Nat.eqb_refl. }
    repeat split; try assumption.
    unfold get_is_registered, event_registrations. apply exists_false_iff.
    intros x Hx. apply filter_In in Hx as [Hx He].
    destruct (user_id x =? id user)%nat eqn:Hxu; [|reflexivity].
    exfalso.
    assert (Hin' : In x (objects_filter user event (delete r db))).
    { unfold objects_filter. apply filter_In. rewrite Hxu, He. auto. }
    rewrite Hempty in Hin'. exact Hin'.
  - intros Hu r. now apply unique_objects_filter.
Qed.

Lemma unique_together_store_bob : unique_together (store (Some 1) [row 1 2 1 confirmed]).
Proof. unfold unique_together; simpl. repeat constructor. intros []. Qed.

Lemma unregister_contract_witness :
  unregister carol 1 (store (Some 1) [row 1 2 1 confirmed])
    = (NotRegistered, store (Some 1) [row 1 2 1 confirmed])
  /\ unregister bob 1 (store (Some 1) [row 1 2 1 confirmed])
    = (Returns {| data := message "Successfully unregistered from event";
                  status_code := HTTP_200_OK |},
       delete (row 1 2 1 confirmed) (store (Some 1) [row 1 2 1 confirmed]))
  /\ get_is_registered (Some bob) (meetup (Some 1))
       (delete (row 1 2 1 confirmed) (store (Some 1) [row 1 2 1 confirmed])) = false.
Proof.
  destruct (unregister_contract carol 1 (store (Some 1) [row 1 2 1 confirmed])
              (meetup (Some 1)) eq_refl) as (Hnone & _ & _).
  destruct (unregister_contract bob 1 (store (Some 1) [row 1 2 1 confirmed])
              (meetup (Some 1)) eq_refl) as (_ & Hsome & Hthe).
  pose proof (Hthe unique_together_store_bob (row 1 2 1 confirmed)
                (or_introl eq_refl) eq_refl eq_refl) as Hone.
  destruct (Hsome (row 1 2 1 confirmed) Hone) as (Hok & _ & _ & _ & Hreg).
  split; [apply Hnone; reflexivity | split; assumption].
Defined.

(** *** Rows that are not confirmed *)

Lemma not_confirmed (r : EventRegistration) :
  status r = cancelled \/ status r = waitlist -> Status_eqb (status r) confirmed = false.
Proof. intros [-> | ->]; reflexivity. Qed.

Lemma attendees_count_without (event : Event) (db : Database)
    (before after : list EventRegistration) (r : EventRegistration) :
  Status_eqb (status r) confirmed = false ->
  registrations db = before ++ r :: after ->
  attendees_count event db = attendees_count event (set_registrations (before ++ after) db).
Proof.
  intros Hs Hsplit.
  unfold attendees_count, filter_status, event_registrations, set_registrations; simpl.
  rewrite Hsplit, !filter_app. simpl.
  destruct (event_id r =? pk event)%nat; simpl; [rewrite Hs|]; reflexivity.
Qed.

(** C9, as amended.  In a store that keeps the unique constraint, let the
    user hold a row for the event whose status is cancelled or waitlist,
    and let the user not be the organizer of the event.  Then register
    fails with [DuplicateRegistration] and changes nothing, although
    [is_registered] is false and taking that row out of the table changes
    neither [attendees_count] nor [is_full]. *)
Theorem inactive_row_blocks_register (now : Z) (user : User) (key : nat) (db : Database)
    (event : Event) (r : EventRegistration) :
  get_object key db = Some event ->
  unique_together db ->
  In r (registrations db) -> user_id r = id user -> event_id r = pk event ->
  status r = cancelled \/ status r = waitlist ->
  organizer event <> id user ->
  register now user key db = (DuplicateRegistration, db)
  /\ get_is_registered (Some user) event db = false
  /\ (forall before after, registrations db = before ++ r :: after ->
        attendees_count event db
          = attendees_count event (set_registrations (before ++ after) db)
        /\ is_full event db = is_full event (set_registrations (before ++ after) db)).
Proof.
  intros Hget Hu Hin Huser Hevent Hstatus Howner.
  pose proof (unique_objects_filter user event db r Hu Hin Huser Hevent) as Hone.
  apply not_confirmed in Hstatus.
  split; [|split].
  - unfold register. rewrite Hget.
    apply Nat.eqb_neq in Howner. rewrite Howner, Hone. reflexivity.
  - unfold get_is_registered, event_registrations. apply exists_false_iff.
    intros x Hx. apply filter_In in Hx as [Hx He].
    destruct (user_id x =? id user)%nat eqn:Hxu; [simpl|reflexivity].
    assert (Hx' : In x (objects_filter user event db)).
    { unfold objects_filter. apply filter_In. rewrite Hxu, He. auto. }
    rewrite Hone in Hx'. destruct Hx' as [<- | []]. exact Hstatus.
  - intros before after Hsplit.
    pose proof (attendees_count_without event db before after r Hstatus Hsplit) as Hc.
    split; [exact Hc|].
    unfold is_full. destruct (max_attendees event); [rewrite Hc|]; reflexivity.
Qed.

Lemma unique_together_store_cancelled :
  unique_together (store (Some 1) [row 1 2 1 cancelled]).
Proof. unfold unique_together; simpl. repeat constructor. intros []. Qed.

Lemma inactive_row_blocks_register_witness :
  register 50 bob 1 (store (Some 1) [row 1 2 1 cancelled])
    = (DuplicateRegistration, store (Some 1) [row 1 2 1 cancelled])
  /\ get_is_registered (Some bob) (meetup (Some 1)) (store (Some 1) [row 1 2 1 cancelled])
     = false
  /\ attendees_count (meetup (Some 1)) (store (Some 1) [row 1 2 1 cancelled]) = 0
  /\ is_full (meetup (Some 1)) (store (Some 1) [row 1 2 1 cancelled]) = false.
Proof.
  destruct (inactive_row_blocks_register 50 bob 1 (store (Some 1) [row 1 2 1 cancelled])
              (meetup (Some 1)) (row 1 2 1 cancelled)
              eq_refl unique_together_store_cancelled (or_introl eq_refl) eq_refl eq_refl
              (or_introl eq_refl))
    as (Hreg & Hisreg & Hcount).
  { simpl. discriminate. }
  destruct (Hcount [] [] eq_refl) as [Hc Hf].
  split; [exact Hreg | split; [exact Hisreg | split; [rewrite Hc | rewrite Hf]; reflexivity]].
Defined.

(** C9, as it is written, fails for the organizer: alice holds a
    cancelled row for her own event, and register answers with
    [OwnerSelfRegistration], not with [DuplicateRegistration]. *)
Lemma inactive_row_of_organizer :
  In (row 1 1 1 cancelled) (registrations (store (Some 5) [row 1 1 1 cancelled]))
  /\ user_id (row 1 1 1 cancelled) = id alice
  /\ event_id (row 1 1 1 cancelled) = pk (meetup (Some 5))
  /\ status (row 1 1 1 cancelled) = cancelled
  /\ get_object 1 (store (Some 5) [row 1 1 1 cancelled]) = Some (meetup (Some 5))
  /\ fst (register 50 alice 1 (store (Some 5) [row 1 1 1 cancelled])) = OwnerSelfRegistration
  /\ fst (register 50 alice 1 (store (Some 5) [row 1 1 1 cancelled])) <> DuplicateRegistration.
Proof.
  repeat split; try reflexivity; [now left | discriminate].
Qed.

(** *** Register and the date of the event *)

(** No path of register answers [EventInPast]. *)
Lemma register_never_event_in_past now user key db :
  fst (register now user key db) <> EventInPast.
Proof.
  unfold register.
  destruct (get_object key db) as [event|]; [|discriminate].
  destruct (organizer event =? id user)%nat; [discriminate|].
  destruct (exists_ (objects_filter user event db)); [discriminate|].
  destruct (is_full event db); [discriminate|].
  destruct (objects_create now user event confirmed db) as [[r db']|]; discriminate.
Qed.

(** C6 fails on the code.  At time 200 bob registers for the meetup held
    at time 100: the view answers 201 and inserts the row, while the two
    validators written for this case, [validate_event] and
    [EventRegistration.clean], both refuse it. *)
Theorem register_accepts_past_event :
  date (meetup None) < 200
  /\ register 200 bob 1 (store None [])
     = (Returns {| data := RegistrationData
                             {| registration_pk := 1; user_id := 2; event_id := 1;
                                status := confirmed; registered_at := 200;
                                registration_updated_at := 200 |};
                   status_code := HTTP_201_CREATED |},
        {| events := [meetup None];
           registrations := [{| registration_pk := 1; user_id := 2; event_id := 1;
                                status := confirmed; registered_at := 200;
                                registration_updated_at := 200 |}];
           event_seq := 2; registration_seq := 2 |})
  /\ fst (register 200 bob 1 (store None [])) <> EventInPast
  /\ validate_event 200 bob (meetup None) (store None [])
     = ValidationError "Cannot register for past events"
  /\ EventRegistration_clean 200 (row 1 2 1 confirmed) (meetup None)
     = Some "Cannot register for past events"%string.
Proof.
  repeat split; try reflexivity. discriminate.
Qed.

(** *** Register and the notification *)

Lemma serve_outbox {backend : Backend} (now : Z) (request : Request) (w : World) :
  outbox (snd (serve now request w)) = outbox w.
Proof.
  unfold serve. destruct (dispatch now request (database w)). reflexivity.
Qed.

(** A delivery failure inside the sender is caught: once the calls before
    the [try] have returned, a transport that fails makes the sender answer
    [False], and the outbox stays as it was. *)
Lemma send_failure_is_caught render strip fmt sender (user : User) (event : Event)
    (box : list emails.EmailMessage) :
  prepares render strip fmt "emails/registration_confirmation.html" user event = true ->
  emails.send_registration_confirmation_email
    (fun _ => emails.SendFailed) render strip fmt sender user event box
  = (emails.returns false, box).
Proof.
  unfold prepares, emails.send_registration_confirmation_email, emails.try_send_mail.
  destruct (fmt (date event) _) as [d|]; [|discriminate].
  destruct (render _ user event d) as [h|]; [|discriminate].
  destruct (strip h); [reflexivity | discriminate].
Qed.

(** C7 on the code: a register request that succeeds appends one row with
    status confirmed for the user and the event, and sends nothing: the
    outbox after the request is the outbox before it. *)
Theorem register_creates_confirmed_and_sends_nothing {backend : Backend} (now : Z)
    (user : User) (key : nat)
    (w : World) :
  succeeded (fst (serve now (POST_register user key) w)) = true ->
  exists r,
    registrations (database (snd (serve now (POST_register user key) w)))
      = registrations (database w) ++ [r]
    /\ user_id r = id user /\ event_id r = key /\ status r = confirmed
    /\ outbox (snd (serve now (POST_register user key) w)) = outbox w.
Proof.
  intros Hok. rewrite serve_outbox.
  unfold serve in *. simpl in *.
  pose proof (register_succeeded now user key (database w)) as Hreg.
  destruct (register now user key (database w)) as [o db'] eqn:E. simpl in *.
  destruct (Hreg Hok) as (event & r & Hget & _ & _ & _ & Hcreate & _).
  apply objects_create_registrations in Hcreate
    as (Hrows & _ & _ & Hu & He & Hs & _).
  exists r. repeat split; try assumption.
  rewrite He. unfold get_object, events_get in Hget.
  apply find_some in Hget as [_ Hk]. now apply Nat.eqb_eq in Hk.
Qed.

Lemma register_creates_confirmed_and_sends_nothing_witness :
  exists r,
    registrations (database (snd (serve (backend := sample_backend) 50 (POST_register bob 1)
                                    {| database := store None []; outbox := [] |})))
      = [] ++ [r]
    /\ user_id r = 2%nat /\ event_id r = 1%nat /\ status r = confirmed
    /\ outbox (snd (serve (backend := sample_backend) 50 (POST_register bob 1)
                      {| database := store None []; outbox := [] |})) = [].
Proof.
  apply (register_creates_confirmed_and_sends_nothing 50 bob 1
           {| database := store None []; outbox := [] |}).
  reflexivity.
Defined.

(** *** Event creation *)

Lemma validate_date_accepts (now value : Z) :
  validate_date now value = Valid value <-> now <= value.
Proof.
  unfold validate_date. destruct (value <? now) eqn:E.
  - apply Z.ltb_lt in E. split; [discriminate | lia].
  - apply Z.ltb_ge in E. split; auto.
Qed.

Lemma validate_max_attendees_accepts (value : option Z) :
  validate_max_attendees value = Valid value <-> (forall m, value = Some m -> 0 < m).
Proof.
  unfold validate_max_attendees. destruct value as [v|].
  - destruct (v <=? 0) eqn:E.
    + apply Z.leb_le in E. split; [discriminate|]. intros H. specialize (H v eq_refl). lia.
    + apply Z.leb_gt in E. split; auto. intros _ m [= <-]. exact E.
  - split; auto. intros _ m [=].
Qed.

Lemma date_messages (now d : Z) :
  messages_of "date" (run_field (Clean d) (validate_date now))
  = if d <? now then [PastDateError] else [].
Proof. unfold run_field, validate_date. destruct (d <? now); reflexivity. Qed.

Lemma capacity_messages {backend : Backend} (m : Z) :
  m <= 0 ->
  In (InvalidCapacityError m)
     (messages_of "max_attendees"
        (run_field (PositiveIntegerField (Some m)) validate_max_attendees)).
Proof.
  intros Hm. unfold InvalidCapacityError, PositiveIntegerField.
  destruct (m <? 0) eqn:Hneg.
  - destruct (Z.of_N positive_integer_max <? m); simpl; auto.
  - apply Z.ltb_ge in Hneg. assert (m = 0) by lia. subst m.
    replace (Z.of_N positive_integer_max <? 0) with false
      by (symmetry; apply Z.ltb_ge; lia).
    simpl. auto.
Qed.

Lemma capacity_accepted {backend : Backend} (value : option Z) :
  (forall m, value = Some m -> 0 < m <= Z.of_N positive_integer_max) ->
  messages_of "max_attendees" (run_field (PositiveIntegerField value) validate_max_attendees)
  = [].
Proof.
  intros H. destruct value as [m|]; [|reflexivity].
  specialize (H m eq_refl). unfold PositiveIntegerField.
  replace (Z.of_N positive_integer_max <? m) with false by (symmetry; apply Z.ltb_ge; lia).
  replace (m <? 0) with false by (symmetry; apply Z.ltb_ge; lia).
  simpl. replace (m <=? 0) with false by (symmetry; apply Z.leb_gt; lia).
  reflexivity.
Qed.

Lemma messages_of_field {A} (field : string) (c : Cleaned A) (e : FieldError) :
  In e (messages_of field c) -> fst e = field.
Proof.
  destruct c as [v | msgs]; simpl; [contradiction|].
  intros H. apply in_map_iff in H as [msg [<- _]]. reflexivity.
Qed.

(** A create that finds an error raises with all of them and leaves the
    store alone. *)
Lemma create_refuses {backend : Backend} now user body db (e : FieldError) :
  In e (errors now body) ->
  create now user body db = (Raises (InvalidData (errors now body)), db).
Proof.
  unfold create. destruct (errors now body); [contradiction | reflexivity].
Qed.

Lemma create_failed_unchanged {backend : Backend} now user body db :
  failed (fst (create now user body db)) = true -> snd (create now user body db) = db.
Proof.
  unfold create. destruct (errors now body); [discriminate | reflexivity].
Qed.

(** C8. Creating an event with a date before [now] is refused with
    [PastDateError] among the field errors, and creating one with a
    [max_attendees] that is given and not above 0 is refused with
    [InvalidCapacityError]; a create that fails leaves the store as it
    was.  A date at or after [now] is accepted: it never earns an error on
    the date, and together with a [max_attendees] that is absent or lies
    above 0 within the range of the backend the only errors left are those
    of the three text fields; without any, the answer is 201 and the new
    event, organized by the caller, is the one row added to the store.  No
    event is ever created with a date before [now] or a [max_attendees]
    that is not above 0. *)
Theorem create_validation {backend : Backend} (now : Z) (user : User) (body : EventData)
    (db : Database) :
  (data_date body < now ->
     exists errs, create now user body db = (Raises (InvalidData errs), db)
                  /\ In PastDateError errs)
  /\ (forall m, data_max_attendees body = Some m -> m <= 0 ->
     exists errs, create now user body db = (Raises (InvalidData errs), db)
                  /\ In (InvalidCapacityError m) errs)
  /\ (failed (fst (create now user body db)) = true ->
      snd (create now user body db) = db)
  /\ (now <= data_date body ->
      forall errs msg, fst (create now user body db) = Raises (InvalidData errs) ->
                       ~ In ("date"%string, msg) errs)
  /\ (now <= data_date body ->
      (forall m, data_max_attendees body = Some m ->
                 0 < m <= Z.of_N positive_integer_max) ->
      (exists event,
         create now user body db
           = (Returns {| data := EventData_ event; status_code := HTTP_201_CREATED |},
              {| events := events db ++ [event];
                 registrations := registrations db;
                 event_seq := S (event_seq db);
                 registration_seq := registration_seq db |})
         /\ date event = data_date body
         /\ max_attendees event = data_max_attendees body
         /\ organizer event = id user)
      \/ (exists errs,
            create now user body db = (Raises (InvalidData errs), db)
            /\ errs <> []
            /\ forall e, In e errs ->
                 fst e = "title"%string \/ fst e = "description"%string
                 \/ fst e = "location"%string))
  /\ (forall event,
        fst (create now user body db)
          = Returns {| data := EventData_ event; status_code := HTTP_201_CREATED |} ->
        now <= date event /\ (forall m, max_attendees event = Some m -> 0 < m)).
Proof.
  split; [|split; [|split; [|split; [|split]]]].
  - intros Hpast.
    assert (Hin : In PastDateError (errors now body)).
    { unfold errors. rewrite date_messages. apply Z.ltb_lt in Hpast. rewrite Hpast.
      apply in_or_app; right. apply in_or_app; right. apply in_or_app; left. now left. }
    exists (errors now body). split; [now apply (create_refuses _ _ _ _ _ Hin) | exact Hin].
  - intros m Hm Hle.
    assert (Hin : In (InvalidCapacityError m) (errors now body)).
    { unfold errors. rewrite Hm.
      apply in_or_app; right. apply in_or_app; right. apply in_or_app; right.
      apply in_or_app; right. now apply capacity_messages. }
    exists (errors now body). split; [now apply (create_refuses _ _ _ _ _ Hin) | exact Hin].
  - apply create_failed_unchanged.
  - intros Hdate errs msg Hraise Hin.
    unfold create in Hraise. destruct (errors now body) as [|e l] eqn:Herr; [discriminate|].
    simpl in Hraise. injection Hraise as <-. rewrite <- Herr in Hin. unfold errors in Hin.
    rewrite date_messages in Hin. apply Z.ltb_ge in Hdate. rewrite Hdate in Hin.
    repeat (apply in_app_or in Hin as [Hin | Hin]);
      try (apply messages_of_field in Hin; discriminate).
    destruct Hin.
  - intros Hdate Hseats.
    destruct (errors now body) as [|e l] eqn:Herr.
    + left. unfold create. rewrite Herr. eexists. split; [reflexivity|]. simpl. auto.
    + right. exists (e :: l). split; [|split; [discriminate|]].
      * unfold create. now rewrite Herr.
      * rewrite <- Herr. unfold errors. rewrite date_messages.
        apply Z.ltb_ge in Hdate. rewrite Hdate, (capacity_accepted _ Hseats).
        intros x Hx.
        repeat (apply in_app_or in Hx as [Hx | Hx]);
          try (apply messages_of_field in Hx; auto); destruct Hx.
  - intros event Hret. unfold create in Hret.
    destruct (errors now body) as [|e l] eqn:Herr; [|discriminate].
    simpl in Hret. injection Hret as <-. simpl.
    unfold errors in Herr. rewrite date_messages in Herr.
    apply app_eq_nil in Herr as [_ Herr]. apply app_eq_nil in Herr as [_ Herr].
    apply app_eq_nil in Herr as [Hd Herr]. apply app_eq_nil in Herr as [_ Hc].
    split.
    + destruct (data_date body <? now) eqn:E; [discriminate | now apply Z.ltb_ge].
    + intros m Hm.
      destruct (Z_le_gt_dec m 0) as [Hle | Hgt]; [|lia].
      pose proof (capacity_messages m Hle) as Hin. rewrite <- Hm, Hc in Hin. destruct Hin.
Qed.

Lemma create_validation_witness :
  (exists errs, create (backend := sample_backend) 50 alice (body 49 (Some 3)) empty_database
                  = (Raises (InvalidData errs), empty_database)
                /\ In PastDateError errs)
  /\ (exists errs, create (backend := sample_backend) 50 alice (body 60 (Some 0))
                     empty_database
                   = (Raises (InvalidData errs), empty_database)
                /\ In (InvalidCapacityError 0) errs)
  /\ (exists errs, create (backend := sample_backend) 50 alice (body 60 (Some (-1)))
                     empty_database
                   = (Raises (InvalidData errs), empty_database)
                /\ In (InvalidCapacityError (-1)) errs)
  /\ succeeded (fst (create (backend := sample_backend) 50 alice (body 50 None)
                       empty_database)) = true.
Proof.
  split; [|split; [|split]].
  - apply (create_validation (backend := sample_backend) 50 alice (body 49 (Some 3))
             empty_database). reflexivity.
  - apply (create_validation (backend := sample_backend) 50 alice (body 60 (Some 0))
             empty_database) with (m := 0); [reflexivity | discriminate].
  - apply (create_validation (backend := sample_backend) 50 alice (body 60 (Some (-1)))
             empty_database) with (m := -1); [reflexivity | discriminate].
  - destruct (create_validation (backend := sample_backend) 50 alice (body 50 None)
                empty_database) as (_ & _ & _ & _ & Haccept & _).
    destruct Haccept as [[event [Hcreate _]] | [errs [Hcreate _]]];
      [discriminate | intros m [=] | rewrite Hcreate; reflexivity | discriminate Hcreate].
Defined.

(** *** What the API keeps true of the store *)

Lemma NoDup_map_inj_in {A B} (f : A -> B) (l : list A) (x y : A) :
  NoDup (map f l) -> In x l -> In y l -> f x = f y -> x = y.
Proof.
  induction l as [|a l IH]; simpl; intros Hnd Hx Hy Hf; [contradiction|].
  inversion Hnd as [|? ? Hnotin Hrest]; subst.
  destruct Hx as [-> | Hx], Hy as [-> | Hy]; auto.
  - exfalso. apply Hnotin. rewrite Hf. now apply in_map.
  - exfalso. apply Hnotin. rewrite <- Hf. now apply in_map.
Qed.

Lemma get_object_In (key : nat) (db : Database) (event : Event) :
  get_object key db = Some event -> In event (events db) /\ pk event = key.
Proof.
  unfold get_object, events_get. intros H. apply find_some in H as [Hin Hk].
  apply Nat.eqb_eq in Hk. auto.
Qed.

Lemma get_object_found (key : nat) (db : Database) (e : Event) :
  In e (events db) -> pk e = key ->
  exists event, get_object key db = Some event.
Proof.
  intros Hin Hk. unfold get_object, events_get.
  destruct (find (fun e0 => (pk e0 =? key)%nat) (events db)) as [event|] eqn:E; [eauto|].
  exfalso. pose proof (find_none _ _ E e Hin) as Hn. simpl in Hn.
  apply Nat.eqb_neq in Hn. contradiction.
Qed.

Lemma get_object_same_events (key : nat) (db db' : Database) :
  events db' = events db -> get_object key db' = get_object key db.
Proof. unfold get_object, events_get. now intros ->. Qed.

Lemma violates_false_not_in (u e : nat) (db : Database) :
  violates_unique_together u e db = false ->
  ~ In (u, e) (map key_of (registrations db)).
Proof.
  unfold violates_unique_together. intros Hv Hin.
  apply in_map_iff in Hin as [r [Hk Hin]].
  assert (Ht : existsb (fun r => (user_id r =? u)%nat && (event_id r =? e)%nat)
                       (registrations db) = true).
  { apply existsb_exists. exists r. split; [exact Hin|]. now apply same_pair_true. }
  congruence.
Qed.

(** The unique constraint is kept by the insert itself, whoever calls
    it. *)
Lemma unique_together_objects_create now user event s db r db' :
  unique_together db ->
  objects_create now user event s db = Some (r, db') ->
  unique_together db'.
Proof.
  intros Hu Hc. apply objects_create_registrations in Hc
    as (Hrows & _ & _ & Huser & Hevent & _ & Hfree).
  unfold unique_together. rewrite Hrows. apply NoDup_map_snoc; [exact Hu|].
  unfold key_of at 1. rewrite Huser, Hevent. now apply violates_false_not_in.
Qed.

Lemma consistent_empty : consistent empty_database.
Proof.
  constructor; unfold_store_properties; simpl;
    try constructor; intros; contradiction.
Qed.

Lemma consistent_create {backend : Backend} now user body db :
  consistent db -> consistent (snd (create now user body db)).
Proof.
  intros [Hu He Ho Hk Hn Hs]. unfold create.
  destruct (errors now body); [|constructor; assumption].
  constructor; unfold_store_properties; simpl.
  - exact Hu.
  - intros r Hr. destruct (He r Hr) as [e [Hin Hpk]].
    exists e. split; [apply in_or_app; now left | exact Hpk].
  - intros r e Hr Hin Hpk. apply in_app_or in Hin as [Hin | [<- | []]]; [eauto|].
    simpl in Hpk. destruct (He r Hr) as [e' [Hin' Hpk']].
    specialize (Hk e' Hin'). lia.
  - intros e Hin. apply in_app_or in Hin as [Hin | [<- | []]]; simpl.
    + specialize (Hk e Hin). lia.
    + lia.
  - rewrite map_app. simpl. apply NoDup_app; [exact Hn | repeat constructor; intros [] |].
    intros x Hx [<- | []]. apply in_map_iff in Hx as [e [Hpk Hin]].
    specialize (Hk e Hin). lia.
  - exact Hs.
Qed.

Lemma apply_patch_key now patch instance : pk (apply_patch now patch instance) = pk instance.
Proof. reflexivity. Qed.

Lemma apply_patch_organizer now patch instance :
  organizer (apply_patch now patch instance) = organizer instance.
Proof. reflexivity. Qed.

Lemma consistent_partial_update {backend : Backend} now user key patch db :
  consistent db -> consistent (snd (partial_update now user key patch db)).
Proof.
  intros H. unfold partial_update.
  destruct (get_object key db) as [instance|] eqn:Hget; [|exact H].
  destruct (negb (IsOrganizerOrReadOnly user instance)); [exact H|].
  destruct (patch_errors now patch); [|exact H].
  apply get_object_In in Hget as [Hinst Hkey].
  destruct H as [Hu He Ho Hk Hn Hs].
  set (f := fun e : Event =>
              if (pk e =? key)%nat then apply_patch now (validated_patch patch) instance else e).
  assert (Hpk : forall e, pk (f e) = pk e).
  { intros e. unfold f. destruct (pk e =? key)%nat eqn:E; [|reflexivity].
    apply Nat.eqb_eq in E. rewrite apply_patch_key. congruence. }
  assert (Horg : forall e, In e (events db) -> organizer (f e) = organizer e).
  { intros e Hin. unfold f. destruct (pk e =? key)%nat eqn:E; [|reflexivity].
    apply Nat.eqb_eq in E. rewrite apply_patch_organizer.
    f_equal. apply (NoDup_map_inj_in pk (events db)); auto. congruence. }
  constructor; unfold_store_properties; simpl; fold f.
  - exact Hu.
  - intros r Hr. destruct (He r Hr) as [e [Hin Hp]].
    exists (f e). split; [now apply in_map | now rewrite Hpk].
  - intros r e' Hr Hin Hp. apply in_map_iff in Hin as [e [<- Hin]].
    rewrite Hpk in Hp. rewrite (Horg e Hin). eauto.
  - intros e' Hin. apply in_map_iff in Hin as [e [<- Hin]]. rewrite Hpk. auto.
  - rewrite map_map. erewrite map_ext; [exact Hn | exact Hpk].
  - exact Hs.
Qed.

Lemma consistent_destroy user key db :
  consistent db -> consistent (snd (destroy user key db)).
Proof.
  intros H. unfold destroy.
  destruct (get_object key db) as [instance|]; [|exact H].
  destruct (negb (IsOrganizerOrReadOnly user instance)); [exact H|].
  destruct H as [Hu He Ho Hk Hn Hs].
  constructor; unfold_store_properties; simpl.
  - now apply NoDup_map_filter.
  - intros r Hr. apply filter_In in Hr as [Hr Hne].
    destruct (He r Hr) as [e [Hin Hp]]. exists e. split; [|exact Hp].
    apply filter_In. split; [exact Hin |]. now rewrite Hp.
  - intros r e Hr Hin. apply filter_In in Hr as [Hr _]. apply filter_In in Hin as [Hin _].
    eauto.
  - intros e Hin. apply filter_In in Hin as [Hin _]. auto.
  - now apply NoDup_map_filter.
  - intros r Hr. apply filter_In in Hr as [Hr _]. auto.
Qed.

Lemma consistent_register now user key db :
  consistent db -> consistent (snd (register now user key db)).
Proof.
  intros H.
  destruct (succeeded (fst (register now user key db))) eqn:Hok.
  - destruct (register_succeeded now user key db Hok)
      as (event & r & Hget & Howner & _ & _ & Hcreate & _).
    pose proof (unique_together_objects_create _ _ _ _ _ _ _ (consistent_unique _ H) Hcreate)
      as Hunique.
    apply objects_create_registrations in Hcreate
      as (Hrows & Hevents & Hseq & Huser & Hevent & Hstatus & _).
    apply get_object_In in Hget as [Hin Hkey].
    destruct H as [Hu He Ho Hk Hn Hs].
    constructor; unfold events_exist, no_owner_registration,
      keys_below_seq, keys_unique, all_confirmed in *;
      try rewrite Hrows; try rewrite Hevents; try rewrite Hseq.
    + exact Hunique.
    + intros r' Hr'. apply in_app_or in Hr' as [Hr' | [<- | []]]; [auto|].
      exists event. split; [exact Hin | now symmetry].
    + intros r' e Hr' Hine Hp. apply in_app_or in Hr' as [Hr' | [<- | []]]; [eauto|].
      rewrite Huser.
      replace e with event; [exact Howner|].
      apply (NoDup_map_inj_in pk (events db)); auto. congruence.
    + exact Hk.
    + exact Hn.
    + intros r' Hr'. apply in_app_or in Hr' as [Hr' | [<- | []]]; auto.
  - rewrite register_failed_unchanged; [exact H|]. unfold failed. now rewrite Hok.
Qed.

Lemma consistent_unregister user key db :
  consistent db -> consistent (snd (unregister user key db)).
Proof.
  intros H. unfold unregister.
  destruct (get_object key db) as [event|]; [|exact H].
  destruct (objects_get user event db) as [r| |]; [|exact H|exact H].
  destruct H as [Hu He Ho Hk Hn Hs].
  constructor; unfold events_exist, no_owner_registration,
    keys_below_seq, keys_unique, all_confirmed in *; simpl.
  - now apply unique_together_delete.
  - intros r' Hr'. apply filter_In in Hr' as [Hr' _]. auto.
  - intros r' e Hr'. apply filter_In in Hr' as [Hr' _]. eauto.
  - exact Hk.
  - exact Hn.
  - intros r' Hr'. apply filter_In in Hr' as [Hr' _]. auto.
Qed.

Lemma consistent_dispatch {backend : Backend} now request db :
  consistent db -> consistent (snd (dispatch now request db)).
Proof.
  destruct request; simpl;
    auto using consistent_create, consistent_partial_update, consistent_destroy,
               consistent_register, consistent_unregister.
Qed.

Lemma reachable_consistent {backend : Backend} db : reachable db -> consistent db.
Proof.
  induction 1 as [|now request db _ IH];
    [apply consistent_empty | now apply consistent_dispatch].
Qed.

(** *** One registration per user and event *)

Lemma unique_together_at_most_one (u e : nat) (db : Database) :
  unique_together db -> (registrations_of u e db <= 1)%nat.
Proof.
  intros Hu. unfold registrations_of. fold (same_pair u e).
  destruct (filter (same_pair u e) (registrations db)) as [|x q] eqn:E; [simpl; lia|].
  first_of_filter E x Hx Hk. apply same_pair_true in Hk. injection Hk as <- <-.
  rewrite (unique_pair_filter _ x Hu Hx) in E. injection E as <-. simpl. lia.
Qed.

Lemma registrations_of_positive (u e : nat) (db : Database) :
  (0 < registrations_of u e db)%nat ->
  exists r, In r (registrations db) /\ user_id r = u /\ event_id r = e.
Proof.
  unfold registrations_of. fold (same_pair u e).
  destruct (filter (same_pair u e) (registrations db)) as [|x q] eqn:E; [simpl; lia|].
  intros _.
  first_of_filter E x Hx Hk. apply same_pair_true in Hk. injection Hk as <- <-.
  eauto.
Qed.

(** Register right after a successful register of the same pair: from
    any store. *)
Lemma register_twice (now now' : Z) (user : User) (key : nat) (db : Database) :
  succeeded (fst (register now user key db)) = true ->
  register now' user key (snd (register now user key db))
    = (DuplicateRegistration, snd (register now user key db)).
Proof.
  intros Hok.
  destruct (register_succeeded now user key db Hok)
    as (event & r & Hget & Howner & _ & _ & Hcreate & _).
  apply objects_create_registrations in Hcreate
    as (Hrows & Hevents & _ & Huser & Hevent & _ & _).
  unfold register at 1.
  rewrite (get_object_same_events key db _ Hevents), Hget.
  apply Nat.eqb_neq in Howner. rewrite Howner.
  replace (exists_ (objects_filter user event (snd (register now user key db)))) with true;
    [reflexivity|].
  symmetry. apply exists_true_iff. exists r. rewrite Hrows. split.
  - apply in_or_app. right. now left.
  - rewrite Huser, Hevent, !Nat.eqb_refl. reflexivity.
Qed.

(** C1. In every store the API can reach, each (user, event) pair has at
    most one registration; a register call for a pair that has one fails
    with [DuplicateRegistration] and changes nothing; and a register call
    that follows a successful register of the same pair fails in the same
    way. *)
Theorem one_registration_per_pair {backend : Backend} (db : Database) :
  reachable db ->
  (forall u e, (registrations_of u e db <= 1)%nat)
  /\ (forall now user key, (0 < registrations_of (id user) key db)%nat ->
        register now user key db = (DuplicateRegistration, db))
  /\ (forall now now' user key,
        succeeded (fst (register now user key db)) = true ->
        register now' user key (snd (register now user key db))
          = (DuplicateRegistration, snd (register now user key db))).
Proof.
  intros Hreach. apply reachable_consistent in Hreach.
  destruct Hreach as [Hu He Ho Hk Hn Hs].
  split; [|split].
  - intros u e. now apply unique_together_at_most_one.
  - intros now user key Hpos.
    apply registrations_of_positive in Hpos as (r & Hr & Huser & Hevent).
    destruct (He r Hr) as [e [Hin Hp]].
    destruct (get_object_found key db e Hin) as [event Hget]; [congruence|].
    unfold register. rewrite Hget.
    apply get_object_In in Hget as [Hevin Hevk].
    assert (Howner : organizer event <> id user).
    { rewrite <- Huser. apply (Ho r event Hr Hevin). congruence. }
    apply Nat.eqb_neq in Howner. rewrite Howner.
    replace (exists_ (objects_filter user event db)) with true; [reflexivity|].
    symmetry. apply exists_true_iff. exists r. split; [exact Hr|].
    rewrite Huser, Hevent, Hevk, !Nat.eqb_refl. reflexivity.
  - intros now now' user key. apply register_twice.
Qed.

Lemma one_registration_per_pair_witness :
  (registrations_of 2 1 after_two_requests <= 1)%nat
  /\ fst (register 40 bob 1 after_two_requests) = DuplicateRegistration.
Proof.
  destruct (one_registration_per_pair (backend := sample_backend) after_two_requests)
    as (Hmost & Hdup & _).
  { apply reachable_step, reachable_step, reachable_empty. }
  split; [apply Hmost|].
  rewrite (Hdup 40 bob 1%nat); [reflexivity|].
  vm_compute. lia.
Defined.

(** *** Capacity *)

Lemma attendees_count_nonneg (event : Event) (db : Database) : 0 <= attendees_count event db.
Proof. unfold attendees_count, count. lia. Qed.

Lemma attendees_count_snoc (event : Event) (db db' : Database) (r : EventRegistration) :
  registrations db' = registrations db ++ [r] ->
  event_id r = pk event -> status r = confirmed ->
  attendees_count event db' = attendees_count event db + 1.
Proof.
  intros Hrows He Hs. unfold attendees_count, count, filter_status, event_registrations.
  rewrite Hrows, !filter_app. simpl. rewrite He, Nat.eqb_refl. simpl. rewrite Hs. simpl.
  rewrite length_app. simpl. lia.
Qed.

Lemma register_all_count (calls : list (Z * User)) (key : nat) (db : Database)
    (event : Event) (outs : list Outcome) (db' : Database) :
  get_object key db = Some event ->
  register_all calls key db = (outs, db') ->
  forallb succeeded outs = true ->
  get_object key db' = Some event
  /\ attendees_count event db' = attendees_count event db + Z.of_nat (List.length calls).
Proof.
  revert db outs db'. induction calls as [|[now user] calls IH]; intros db outs db' Hget.
  - simpl. intros [= <- <-] _. split; [exact Hget | lia].
  - cbn [register_all].
    destruct (register now user key db) as [o db1] eqn:Hreg.
    destruct (register_all calls key db1) as [os db2] eqn:Hall.
    intros [= <- <-]. cbn [forallb]. rewrite andb_true_iff. intros [Ho Hos].
    pose proof (register_succeeded now user key db) as Hs.
    rewrite Hreg in Hs. simpl in Hs.
    destruct (Hs Ho) as (event' & r & Hget' & _ & _ & _ & Hcreate & _).
    rewrite Hget in Hget'. injection Hget' as <-.
    apply objects_create_registrations in Hcreate
      as (Hrows & Hevents & _ & _ & Hevent & Hstatus & _).
    assert (Hget1 : get_object key db1 = Some event)
      by (rewrite (get_object_same_events key db db1 Hevents); exact Hget).
    destruct (IH db1 os db2 Hget1 Hall Hos) as [Hget2 Hcount].
    split; [exact Hget2|].
    rewrite Hcount, (attendees_count_snoc event db db1 r Hrows Hevent Hstatus).
    cbn [List.length]. lia.
Qed.

(** The premise of the capacity property can be met for every [n]: users
    with different ids, none the organizer and none with a row for the
    event, all get a seat as long as there is room. *)
Lemma register_all_succeed (calls : list (Z * User)) (key : nat) (db : Database)
    (event : Event) (n : Z) :
  get_object key db = Some event ->
  max_attendees event = Some n ->
  NoDup (map (fun c => id (snd c)) calls) ->
  (forall c, In c calls ->
     organizer event <> id (snd c) /\ exists_ (objects_filter (snd c) event db) = false) ->
  attendees_count event db + Z.of_nat (List.length calls) <= n ->
  forallb succeeded (fst (register_all calls key db)) = true.
Proof.
  revert db. induction calls as [|[now user] calls IH]; intros db Hget Hmax Hnd Hel Hroom;
    [reflexivity|].
  cbn [register_all].
  destruct (Hel (now, user) (or_introl eq_refl)) as [Howner Hfree]. simpl in Howner, Hfree.
  assert (Hok : succeeded (fst (register now user key db)) = true).
  { apply (register_eligible now user key db event Hget Howner Hfree).
    unfold is_full. rewrite Hmax.
    destruct (attendees_count event db >=? n) eqn:E; [|reflexivity].
    apply Z.geb_le in E. cbn [List.length] in Hroom. lia. }
  destruct (register_succeeded now user key db Hok)
    as (event' & r & Hget' & _ & _ & _ & Hcreate & _).
  rewrite Hget in Hget'. injection Hget' as <-.
  apply objects_create_registrations in Hcreate
    as (Hrows & Hevents & _ & Huser & Hevent & Hstatus & _).
  destruct (register now user key db) as [o db1]. simpl in *.
  inversion Hnd as [|? ? Hnotin Hnd']; subst.
  specialize (IH db1).
  destruct (register_all calls key db1) as [os db2]. simpl in *.
  rewrite Hok. apply IH; try assumption.
  - rewrite (get_object_same_events key db db1 Hevents). exact Hget.
  - intros c Hc. destruct (Hel c (or_intror Hc)) as [Hoc Hfc]. split; [exact Hoc|].
    unfold objects_filter in *. rewrite Hrows, filter_app. simpl.
    replace (user_id r =? id (snd c))%nat with false.
    + simpl. rewrite app_nil_r. exact Hfc.
    + symmetry. apply Nat.eqb_neq. rewrite Huser. intros Heq. apply Hnotin.
      rewrite Heq. apply (in_map (fun c => id (snd c)) calls c Hc).
  - rewrite (attendees_count_snoc event db db1 r Hrows Hevent Hstatus). lia.
Qed.

(** C3, as amended.  Let an event have [max_attendees = n], and let [n]
    register calls for it, made one after the other, all succeed.  Then the
    next register call, by a user who is not the organizer and has no row
    for the event, fails with [CapacityExceeded] and changes nothing. *)
Theorem capacity_exceeded_after_n (calls : list (Z * User)) (key : nat) (db : Database)
    (event : Event) (n : Z) (outs : list Outcome) (db' : Database)
    (now : Z) (user : User) :
  get_object key db = Some event ->
  max_attendees event = Some n ->
  Z.of_nat (List.length calls) = n ->
  register_all calls key db = (outs, db') ->
  forallb succeeded outs = true ->
  organizer event <> id user ->
  exists_ (objects_filter user event db') = false ->
  register now user key db' = (CapacityExceeded, db').
Proof.
  intros Hget Hmax Hn Hall Hok Howner Hfree.
  destruct (register_all_count calls key db event outs db' Hget Hall Hok) as [Hget' Hcount].
  unfold register. rewrite Hget'.
  apply Nat.eqb_neq in Howner. rewrite Howner, Hfree.
  replace (is_full event db') with true; [reflexivity|].
  symmetry. unfold is_full. rewrite Hmax. apply Z.geb_le.
  pose proof (attendees_count_nonneg event db). lia.
Qed.

(** Two seats: bob and carol get them, dave is turned away. *)
Lemma capacity_exceeded_after_n_witness :
  forallb succeeded (fst (register_all [(30, bob); (31, carol)] 1 (store (Some 2) []))) = true
  /\ register 32 dave 1 (snd (register_all [(30, bob); (31, carol)] 1 (store (Some 2) [])))
     = (CapacityExceeded, snd (register_all [(30, bob); (31, carol)] 1 (store (Some 2) []))).
Proof.
  split; [reflexivity|].
  apply (capacity_exceeded_after_n [(30, bob); (31, carol)] 1 (store (Some 2) [])
           (meetup (Some 2)) 2
           (fst (register_all [(30, bob); (31, carol)] 1 (store (Some 2) []))));
    try reflexivity.
  simpl. discriminate.
Defined.

(** *** Concurrent requests *)

(** A request that runs alone does what the view does. *)
Lemma run_alone_register (now : Z) (user : User) (key : nat) (db : Database) :
  interleaving.run_alone now (interleaving.at_get_object user key) db
  = (interleaving.finished (fst (register now user key db)), snd (register now user key db)).
Proof.
  unfold interleaving.run_alone, register. simpl.
  destruct (get_object key db) as [event|]; [|reflexivity].
  destruct (organizer event =? id user)%nat; [reflexivity|]. simpl.
  destruct (exists_ (objects_filter user event db)); [reflexivity|]. simpl.
  destruct (is_full event db); [reflexivity|]. simpl.
  destruct (objects_create now user event confirmed db) as [[r db']|]; reflexivity.
Qed.

(** The unique constraint holds under every schedule: it is checked by the
    insert, not by the view. *)
Lemma unique_together_step now t db :
  unique_together db -> unique_together (snd (interleaving.step now t db)).
Proof.
  intros Hu. destruct t as [user key | user event | user event | user event | o]; simpl.
  - destruct (get_object key db) as [event|]; [|exact Hu].
    destruct (organizer event =? id user)%nat; exact Hu.
  - destruct (exists_ (objects_filter user event db)); exact Hu.
  - destruct (is_full event db); exact Hu.
  - destruct (objects_create now user event confirmed db) as [[r db']|] eqn:Hc; [|exact Hu].
    simpl. eapply unique_together_objects_create; eauto.
  - exact Hu.
Qed.

Lemma unique_together_run now schedule tasks db :
  unique_together db -> unique_together (snd (interleaving.run now schedule tasks db)).
Proof.
  revert tasks db. induction schedule as [|i schedule IH]; intros tasks db Hu; [exact Hu|].
  simpl. destruct (nth_error tasks i) as [t|]; [|now apply IH].
  pose proof (unique_together_step now t db Hu) as Hstep.
  destruct (interleaving.step now t db) as [t' db']. now apply IH.
Qed.

(** C3, as it is written, fails for concurrent calls.  The meetup has one
    seat and no registration; bob and carol register at the same time and
    their statements reach the store in turn.  Both count zero attendees
    before either inserts, both get 201, nobody gets [CapacityExceeded],
    and the event ends with two confirmed attendees. *)
Lemma last_seat_taken_twice :
  max_attendees (meetup (Some 1)) = Some 1
  /\ attendees_count (meetup (Some 1)) (store (Some 1) []) = 0
  /\ map interleaving.outcome_of
       (fst (interleaving.run 50 race_schedule race_tasks (store (Some 1) [])))
     = [ Some (Returns {| data := RegistrationData
                                    {| registration_pk := 1; user_id := 2; event_id := 1;
                                       status := confirmed; registered_at := 50;
                                       registration_updated_at := 50 |};
                          status_code := HTTP_201_CREATED |});
         Some (Returns {| data := RegistrationData
                                    {| registration_pk := 2; user_id := 3; event_id := 1;
                                       status := confirmed; registered_at := 50;
                                       registration_updated_at := 50 |};
                          status_code := HTTP_201_CREATED |}) ]
  /\ ~ In (Some CapacityExceeded)
         (map interleaving.outcome_of
            (fst (interleaving.run 50 race_schedule race_tasks (store (Some 1) []))))
  /\ attendees_count (meetup (Some 1))
       (snd (interleaving.run 50 race_schedule race_tasks (store (Some 1) []))) = 2.
Proof.
  repeat split; try reflexivity.
  vm_compute. intros [H | [H | []]]; discriminate.
Qed.

(** ** Further properties of the code *)

(** *** The serializer check and the view *)

(** X1. For an event of the store, [validate_event] of
    [EventRegistrationCreateSerializer] accepts it for a user exactly when
    its date is not before [now] and the register view, run for that user
    on the same store, succeeds. *)
Theorem validate_event_accepts_iff (now now' : Z) (user : User) (key : nat) (db : Database)
    (event : Event) :
  get_object key db = Some event ->
  (validate_event now user event db = Valid event
   <-> now <= date event /\ succeeded (fst (register now' user key db)) = true).
Proof.
  intros Hget. unfold validate_event, register. rewrite Hget.
  destruct (date event <? now) eqn:Hd.
  - apply Z.ltb_lt in Hd. split; [discriminate | intros [H _]; lia].
  - apply Z.ltb_ge in Hd.
    destruct (organizer event =? id user)%nat;
      [split; [discriminate | intros [_ H]; discriminate]|].
    destruct (exists_ (objects_filter user event db)) eqn:He;
      [split; [discriminate | intros [_ H]; discriminate]|].
    destruct (is_full event db);
      [split; [discriminate | intros [_ H]; discriminate]|].
    destruct (objects_create_free now' user event confirmed db He) as [r [db' ->]].
    split; [intros _; split; [exact Hd | reflexivity] | reflexivity].
Qed.

Lemma validate_event_accepts_iff_witness :
  validate_event 50 bob (meetup (Some 1)) (store (Some 1) []) = Valid (meetup (Some 1))
  <-> 50 <= date (meetup (Some 1))
      /\ succeeded (fst (register 60 bob 1 (store (Some 1) []))) = true.
Proof.
  apply (validate_event_accepts_iff 50 60 bob 1 (store (Some 1) []) (meetup (Some 1))).
  reflexivity.
Defined.

(** X2. The row a successful register creates always meets the organizer
    rule of [EventRegistration.clean]; at a time [t], [clean] refuses it
    exactly when the date of the event is before [t], with the message for
    past events. *)
Theorem registered_row_clean (now : Z) (user : User) (key : nat) (db : Database)
    (event : Event) (r : EventRegistration) :
  get_object key db = Some event ->
  fst (register now user key db)
    = Returns {| data := RegistrationData r; status_code := HTTP_201_CREATED |} ->
  forall t, EventRegistration_clean t r event
            = if date event <? t then Some "Cannot register for past events"%string
              else None.
Proof.
  intros Hget Hret t.
  assert (Hok : succeeded (fst (register now user key db)) = true)
    by (rewrite Hret; reflexivity).
  destruct (register_succeeded now user key db Hok)
    as (event' & r' & Hget' & Howner & _ & _ & Hcreate & Hfst).
  rewrite Hget in Hget'. injection Hget' as <-.
  rewrite Hret in Hfst. injection Hfst as <-.
  apply objects_create_registrations in Hcreate as (_ & _ & _ & Huser & _).
  unfold EventRegistration_clean. rewrite Huser.
  replace (id user =? organizer event)%nat with false; [reflexivity|].
  symmetry. apply Nat.eqb_neq. congruence.
Qed.

Lemma registered_row_clean_witness :
  EventRegistration_clean 200
    {| registration_pk := 1; user_id := 2; event_id := 1; status := confirmed;
       registered_at := 50; registration_updated_at := 50 |} (meetup None)
  = Some "Cannot register for past events"%string
  /\ EventRegistration_clean 80
    {| registration_pk := 1; user_id := 2; event_id := 1; status := confirmed;
       registered_at := 50; registration_updated_at := 50 |} (meetup None)
  = None.
Proof.
  split.
  - apply (registered_row_clean 50 bob 1 (store None []) (meetup None) _ eq_refl eq_refl 200).
  - apply (registered_row_clean 50 bob 1 (store None []) (meetup None) _ eq_refl eq_refl 80).
Defined.

(** *** What [is_registered] promises *)

Lemma delete_removes_pair (user : User) (event : Event) (db : Database)
    (r : EventRegistration) :
  objects_filter user event db = [r] -> objects_filter user event (delete r db) = [].
Proof.
  intros Hone. unfold objects_filter, delete in *; simpl.
  rewrite filter_swap, Hone. simpl. now rewrite Nat.eqb_refl.
Qed.

Lemma no_rows_not_registered (user : User) (event : Event) (db : Database) :
  objects_filter user event db = [] -> get_is_registered (Some user) event db = false.
Proof.
  intros Hnone. unfold get_is_registered, event_registrations. apply exists_false_iff.
  intros x Hx. apply filter_In in Hx as [Hx He].
  destruct (user_id x =? id user)%nat eqn:Hxu; [|reflexivity].
  exfalso.
  assert (Hin : In x (objects_filter user event db))
    by (unfold objects_filter; apply filter_In; rewrite Hxu, He; auto).
  rewrite Hnone in Hin. exact Hin.
Qed.

Lemma is_registered_row (user : User) (event : Event) (db : Database) :
  get_is_registered (Some user) event db = true ->
  exists r, In r (registrations db) /\ user_id r = id user /\ event_id r = pk event
            /\ status r = confirmed.
Proof.
  unfold get_is_registered, event_registrations. intros H.
  apply exists_true_iff in H as [r [Hr Hsat]].
  apply filter_In in Hr as [Hr He]. apply andb_true_iff in Hsat as [Hu Hs].
  apply Nat.eqb_eq in Hu, He. exists r. repeat split; try assumption.
  destruct (status r); [reflexivity | discriminate | discriminate].
Qed.

(** X3. When [is_registered] is true for a user and an event of the store,
    the event has at least one attendee; register for that user is refused
    with [DuplicateRegistration] unless the user is the organizer; and, in
    a store that keeps the unique constraint, unregister succeeds and
    turns [is_registered] to false. *)
Theorem is_registered_consequences (now : Z) (user : User) (key : nat) (db : Database)
    (event : Event) :
  get_object key db = Some event ->
  get_is_registered (Some user) event db = true ->
  1 <= attendees_count event db
  /\ (organizer event <> id user ->
      register now user key db = (DuplicateRegistration, db))
  /\ (unique_together db ->
      succeeded (fst (unregister user key db)) = true
      /\ get_is_registered (Some user) event (snd (unregister user key db)) = false).
Proof.
  intros Hget Hreg.
  destruct (is_registered_row user event db Hreg) as (r & Hr & Hu & He & Hs).
  split; [|split].
  - unfold attendees_count, count, filter_status, event_registrations.
    assert (Hin : In r (filter (fun r0 => Status_eqb (status r0) confirmed)
                          (filter (fun r0 => (event_id r0 =? pk event)%nat)
                                  (registrations db)))).
    { apply filter_In. split; [apply filter_In; split; [exact Hr|]|].
      - now apply Nat.eqb_eq.
      - rewrite Hs. reflexivity. }
    destruct (filter _ (filter _ (registrations db))); [destruct Hin | cbn [List.length]; lia].
  - intros Howner. unfold register. rewrite Hget.
    apply Nat.eqb_neq in Howner. rewrite Howner.
    replace (exists_ (objects_filter user event db)) with true; [reflexivity|].
    symmetry. apply exists_true_iff. exists r. split; [exact Hr|].
    rewrite Hu, He, !Nat.eqb_refl. reflexivity.
  - intros Hunique.
    pose proof (unique_objects_filter user event db r Hunique Hr Hu He) as Hone.
    unfold unregister, objects_get. rewrite Hget, Hone. simpl.
    split; [reflexivity|].
    apply no_rows_not_registered. now apply delete_removes_pair.
Qed.

Lemma is_registered_consequences_witness :
  1 <= attendees_count (meetup (Some 1)) (store (Some 1) [row 1 2 1 confirmed])
  /\ register 50 bob 1 (store (Some 1) [row 1 2 1 confirmed])
     = (DuplicateRegistration, store (Some 1) [row 1 2 1 confirmed])
  /\ succeeded (fst (unregister bob 1 (store (Some 1) [row 1 2 1 confirmed]))) = true.
Proof.
  destruct (is_registered_consequences 50 bob 1 (store (Some 1) [row 1 2 1 confirmed])
              (meetup (Some 1)) eq_refl eq_refl) as (Hcount & Hdup & Hun).
  split; [exact Hcount | split].
  - apply Hdup. simpl. discriminate.
  - apply (Hun unique_together_store_bob).
Defined.

(** *** Updating and deleting events *)

Lemma filter_and {A} (f g : A -> bool) (l : list A) :
  filter f (filter g l) = filter (fun x => g x && f x) l.
Proof.
  induction l as [|a l IH]; simpl; [reflexivity|].
  destruct (g a); simpl; [destruct (f a); simpl; now rewrite IH | exact IH].
Qed.

Lemma filter_implied {A} (f g : A -> bool) (l : list A) :
  (forall x, f x = true -> g x = true) -> filter f (filter g l) = filter f l.
Proof.
  intros Himp. induction l as [|a l IH]; simpl; [reflexivity|].
  destruct (g a) eqn:Ga; simpl.
  - destruct (f a); now rewrite IH.
  - destruct (f a) eqn:Fa; [rewrite (Himp a Fa) in Ga; discriminate | exact IH].
Qed.

(** X4. In a store whose event keys are unique, a partial update, whatever
    it answers, leaves the key, the organizer and the creation time of
    every event as they were, does not touch the registration table, and
    leaves every event with another key untouched. *)
Theorem partial_update_frame {backend : Backend} (now : Z) (user : User) (key : nat)
    (patch : EventPatch)
    (db : Database) :
  keys_unique db ->
  map pk (events (snd (partial_update now user key patch db))) = map pk (events db)
  /\ map organizer (events (snd (partial_update now user key patch db)))
     = map organizer (events db)
  /\ map created_at (events (snd (partial_update now user key patch db)))
     = map created_at (events db)
  /\ registrations (snd (partial_update now user key patch db)) = registrations db
  /\ (forall e, In e (events db) -> pk e <> key ->
        In e (events (snd (partial_update now user key patch db)))).
Proof.
  intros Hn. unfold partial_update.
  destruct (get_object key db) as [instance|] eqn:Hget; [|simpl; auto].
  destruct (negb (IsOrganizerOrReadOnly user instance)); [simpl; auto|].
  destruct (patch_errors now patch); [|simpl; auto].
  apply get_object_In in Hget as [Hinst Hkey]. simpl.
  assert (Hsame : forall e, In e (events db) -> (pk e =? key)%nat = true -> e = instance).
  { intros e Hin He. apply Nat.eqb_eq in He.
    apply (NoDup_map_inj_in pk (events db)); auto. congruence. }
  repeat split.
  - rewrite map_map. apply map_ext_in. intros e Hin.
    destruct (pk e =? key)%nat eqn:E; [|reflexivity].
    rewrite (Hsame e Hin E). reflexivity.
  - rewrite map_map. apply map_ext_in. intros e Hin.
    destruct (pk e =? key)%nat eqn:E; [|reflexivity].
    rewrite (Hsame e Hin E). reflexivity.
  - rewrite map_map. apply map_ext_in. intros e Hin.
    destruct (pk e =? key)%nat eqn:E; [|reflexivity].
    rewrite (Hsame e Hin E). reflexivity.
  - intros e Hin Hne. apply in_map_iff. exists e. split; [|exact Hin].
    apply Nat.eqb_neq in Hne. now rewrite Hne.
Qed.

Lemma keys_unique_meetup : keys_unique (store (Some 1) [row 1 2 1 confirmed]).
Proof. unfold keys_unique; simpl. repeat constructor. intros []. Qed.

Lemma partial_update_frame_witness :
  map organizer
    (events (snd (partial_update (backend := sample_backend) 50 alice 1
                    {| patch_title := None; patch_description := None;
                       patch_date := Some 300; patch_location := None;
                       patch_max_attendees := Some (Some 7) |}
                    (store (Some 1) [row 1 2 1 confirmed]))))
  = [1%nat]
  /\ registrations
       (snd (partial_update (backend := sample_backend) 50 alice 1
               {| patch_title := None; patch_description := None;
                  patch_date := Some 300; patch_location := None;
                  patch_max_attendees := Some (Some 7) |}
               (store (Some 1) [row 1 2 1 confirmed])))
     = [row 1 2 1 confirmed].
Proof.
  destruct (partial_update_frame (backend := sample_backend) 50 alice 1
              {| patch_title := None; patch_description := None;
                 patch_date := Some 300; patch_location := None;
                 patch_max_attendees := Some (Some 7) |}
              (store (Some 1) [row 1 2 1 confirmed]) keys_unique_meetup)
    as (_ & Horg & _ & Hrows & _).
  split; [exact Horg | exact Hrows].
Defined.

(** X5. After a destroy that succeeds, the event is gone and so is every
    registration for it, while the other events and the other
    registrations stay, and with them the attendee count of every other
    event; register and unregister for the deleted key raise
    [Http404]. *)
Theorem destroy_cascades (user : User) (key : nat) (db : Database) :
  succeeded (fst (destroy user key db)) = true ->
  get_object key (snd (destroy user key db)) = None
  /\ (forall e, In e (events (snd (destroy user key db)))
                <-> In e (events db) /\ pk e <> key)
  /\ (forall r, In r (registrations (snd (destroy user key db)))
                <-> In r (registrations db) /\ event_id r <> key)
  /\ (forall e, pk e <> key ->
        attendees_count e (snd (destroy user key db)) = attendees_count e db)
  /\ (forall now u, register now u key (snd (destroy user key db))
                    = (Raises Http404, snd (destroy user key db)))
  /\ (forall u, unregister u key (snd (destroy user key db))
                = (Raises Http404, snd (destroy user key db))).
Proof.
  unfold destroy.
  destruct (get_object key db) as [instance|]; [|discriminate].
  destruct (negb (IsOrganizerOrReadOnly user instance)); [discriminate|].
  intros _. simpl.
  set (db' := {| events := filter (fun e => negb (pk e =? key)%nat) (events db);
                 registrations :=
                   filter (fun r => negb (event_id r =? key)%nat) (registrations db);
                 event_seq := event_seq db;
                 registration_seq := registration_seq db |}).
  assert (Hgone : get_object key db' = None).
  { unfold get_object, events_get. simpl.
    destruct (find (fun e => (pk e =? key)%nat)
                (filter (fun e => negb (pk e =? key)%nat) (events db))) as [e|] eqn:E;
      [|reflexivity].
    apply find_some in E as [Hin Hk]. apply filter_In in Hin as [_ Hne].
    rewrite Hk in Hne. discriminate. }
  split; [exact Hgone|].
  split; [|split; [|split; [|split]]].
  - intros e. simpl. rewrite filter_In, negb_true_iff, Nat.eqb_neq. reflexivity.
  - intros r. simpl. rewrite filter_In, negb_true_iff, Nat.eqb_neq. reflexivity.
  - intros e Hne. unfold attendees_count, event_registrations. simpl.
    rewrite filter_implied; [reflexivity|].
    intros r Hr. apply Nat.eqb_eq in Hr. apply negb_true_iff, Nat.eqb_neq. congruence.
  - intros now u. unfold register. now rewrite Hgone.
  - intros u. unfold unregister. now rewrite Hgone.
Qed.

Lemma destroy_cascades_witness :
  get_object 1 (snd (destroy alice 1 (store (Some 1) [row 1 2 1 confirmed]))) = None
  /\ register 50 bob 1 (snd (destroy alice 1 (store (Some 1) [row 1 2 1 confirmed])))
     = (Raises Http404, snd (destroy alice 1 (store (Some 1) [row 1 2 1 confirmed]))).
Proof.
  destruct (destroy_cascades alice 1 (store (Some 1) [row 1 2 1 confirmed]) eq_refl)
    as (Hgone & _ & _ & _ & Hreg & _).
  split; [exact Hgone | apply Hreg].
Defined.

(** *** Registration keys *)

Lemma rows_keyed_empty : rows_keyed empty_database.
Proof. split; simpl; [constructor | intros r []]. Qed.

Lemma rows_keyed_filter (g : EventRegistration -> bool) (db : Database) :
  rows_keyed db -> rows_keyed (set_registrations (filter g (registrations db)) db).
Proof.
  intros [Hnd Hlt]. split; simpl.
  - now apply NoDup_map_filter.
  - intros r Hr. apply filter_In in Hr as [Hr _]. auto.
Qed.

Lemma rows_keyed_dispatch {backend : Backend} now request db :
  rows_keyed db -> rows_keyed (snd (dispatch now request db)).
Proof.
  intros H. destruct request as [user body | user key patch | user key | user key | user key];
    simpl.
  - unfold create. destruct (errors now body); exact H.
  - unfold partial_update. destruct (get_object key db) as [instance|]; [|exact H].
    destruct (negb (IsOrganizerOrReadOnly user instance)); [exact H|].
    destruct (patch_errors now patch); exact H.
  - unfold destroy. destruct (get_object key db) as [instance|]; [|exact H].
    destruct (negb (IsOrganizerOrReadOnly user instance)); [exact H|].
    apply (rows_keyed_filter (fun r => negb (event_id r =? key)%nat) db H).
  - destruct (succeeded (fst (register now user key db))) eqn:Hok.
    + destruct (register_succeeded now user key db Hok)
        as (event & r & _ & _ & _ & _ & Hcreate & _).
      unfold objects_create in Hcreate.
      destruct (violates_unique_together (id user) (pk event) db); [discriminate|].
      injection Hcreate as Hr Hdb. rewrite <- Hdb. destruct H as [Hnd Hlt].
      split; simpl.
      * apply NoDup_map_snoc; [exact Hnd|]. simpl. intros Hin.
        apply in_map_iff in Hin as [x [Hx Hin]]. specialize (Hlt x Hin). lia.
      * intros x Hx. apply in_app_or in Hx as [Hx | [<- | []]]; simpl.
        -- specialize (Hlt x Hx). lia.
        -- lia.
    + rewrite register_failed_unchanged; [exact H|]. unfold failed. now rewrite Hok.
  - unfold unregister. destruct (get_object key db) as [event|]; [|exact H].
    destruct (objects_get user event db) as [r| |]; [|exact H|exact H].
    apply (rows_keyed_filter
             (fun r' => negb (registration_pk r' =? registration_pk r)%nat) db H).
Qed.

Lemma reachable_rows_keyed {backend : Backend} db : reachable db -> rows_keyed db.
Proof.
  induction 1 as [|now request db _ IH];
    [apply rows_keyed_empty | now apply rows_keyed_dispatch].
Qed.

Lemma filter_other_keys (k : nat) (rows : list EventRegistration) :
  (forall x, In x rows -> registration_pk x <> k) ->
  filter (fun r' => negb (registration_pk r' =? k)%nat) rows = rows.
Proof.
  induction rows as [|a rows IH]; simpl; intros H; [reflexivity|].
  replace (registration_pk a =? k)%nat with false
    by (symmetry; apply Nat.eqb_neq; apply H; now left).
  simpl. f_equal. apply IH. intros x Hx. apply H. now right.
Qed.

(** X6. In a store whose registration keys lie below the sequence (every
    store the API reaches is one), an unregister that follows a successful
    register of the same user and event succeeds and gives back the
    registration table and the event table as they were before the
    register. *)
Theorem register_unregister_round_trip (now : Z) (user : User) (key : nat)
    (db : Database) :
  rows_keyed db ->
  succeeded (fst (register now user key db)) = true ->
  succeeded (fst (unregister user key (snd (register now user key db)))) = true
  /\ registrations (snd (unregister user key (snd (register now user key db))))
     = registrations db
  /\ events (snd (unregister user key (snd (register now user key db)))) = events db.
Proof.
  intros [_ Hlt] Hok.
  destruct (register_succeeded now user key db Hok)
    as (event & r & Hget & _ & Hfree & _ & Hcreate & _).
  assert (Hpk : registration_pk r = registration_seq db).
  { unfold objects_create in Hcreate.
    destruct (violates_unique_together (id user) (pk event) db); [discriminate|].
    now injection Hcreate as <- _. }
  apply objects_create_registrations in Hcreate
    as (Hrows & Hevents & _ & Huser & Hevent & _ & _).
  set (db1 := snd (register now user key db)) in *.
  assert (Hone : objects_filter user event db1 = [r]).
  { unfold objects_filter. rewrite Hrows, filter_app. simpl.
    rewrite Huser, Hevent, !Nat.eqb_refl. simpl.
    unfold objects_filter in Hfree.
    destruct (filter _ (registrations db)); [reflexivity | discriminate]. }
  unfold unregister, objects_get.
  rewrite (get_object_same_events key db db1 Hevents), Hget, Hone. simpl.
  split; [reflexivity | split; [|exact Hevents]].
  rewrite Hrows, filter_app. simpl. rewrite Nat.eqb_refl. simpl. rewrite app_nil_r.
  apply filter_other_keys. intros x Hx. specialize (Hlt x Hx). lia.
Qed.

Lemma rows_keyed_store_bob : rows_keyed (store (Some 2) [row 1 2 1 confirmed]).
Proof.
  split; simpl; [repeat constructor; intros [] | intros r [<- | []]; simpl; lia].
Qed.

Lemma register_unregister_round_trip_witness :
  registrations
    (snd (unregister carol 1
            (snd (register 50 carol 1 (store (Some 2) [row 1 2 1 confirmed])))))
  = [row 1 2 1 confirmed].
Proof.
  apply (register_unregister_round_trip 50 carol 1 (store (Some 2) [row 1 2 1 confirmed])
           rows_keyed_store_bob eq_refl).
Defined.

(** *** Seats *)

Lemma length_filter_without (P : EventRegistration -> bool)
    (rows : list EventRegistration) (r : EventRegistration) :
  NoDup (map registration_pk rows) -> In r rows ->
  List.length (filter P rows)
  = (List.length
       (filter P (filter (fun r' => negb (registration_pk r' =? registration_pk r)%nat) rows))
     + (if P r then 1 else 0))%nat.
Proof.
  induction rows as [|a rows IH]; simpl; intros Hnd Hin; [contradiction|].
  inversion Hnd as [|? ? Hnotin Hrest]; subst.
  destruct Hin as [-> | Hin].
  - rewrite Nat.eqb_refl. simpl.
    rewrite filter_other_keys.
    + destruct (P r); simpl; lia.
    + intros x Hx Heq. apply Hnotin. rewrite <- Heq. now apply in_map.
  - replace (registration_pk a =? registration_pk r)%nat with false.
    + simpl. specialize (IH Hrest Hin). destruct (P a); simpl; lia.
    + symmetry. apply Nat.eqb_neq. intros Heq. apply Hnotin. rewrite Heq. now apply in_map.
Qed.

Lemma attendees_count_delete (e : Event) (db : Database) (r : EventRegistration) :
  NoDup (map registration_pk (registrations db)) -> In r (registrations db) ->
  status r = confirmed ->
  attendees_count e db
  = attendees_count e (delete r db) + (if (event_id r =? pk e)%nat then 1 else 0).
Proof.
  intros Hnd Hr Hs.
  unfold attendees_count, count, filter_status, event_registrations, delete. simpl.
  rewrite (filter_and _ _ (registrations db)),
    (filter_and _ _ (filter _ (registrations db))).
  rewrite (length_filter_without _ (registrations db) r Hnd Hr).
  rewrite Hs. simpl. rewrite andb_true_r.
  destruct (event_id r =? pk e)%nat; lia.
Qed.

(** X7. In a store with unique registration keys, let the one row of a
    user for an event be confirmed.  Unregister then lowers the attendee
    count of that event by exactly one and leaves the count of every other
    event as it was; and when the event was not above its [max_attendees],
    it is not full afterwards. *)
Theorem unregister_frees_seat (user : User) (key : nat) (db : Database) (event : Event)
    (r : EventRegistration) :
  get_object key db = Some event ->
  rows_keyed db ->
  objects_filter user event db = [r] ->
  status r = confirmed ->
  attendees_count event (snd (unregister user key db)) = attendees_count event db - 1
  /\ (forall e, pk e <> pk event ->
        attendees_count e (snd (unregister user key db)) = attendees_count e db)
  /\ (forall m, max_attendees event = Some m -> attendees_count event db <= m ->
        is_full event (snd (unregister user key db)) = false).
Proof.
  intros Hget [Hnd _] Hone Hs.
  assert (Hr : In r (objects_filter user event db)) by (rewrite Hone; now left).
  unfold objects_filter in Hr. apply filter_In in Hr as [Hr Hk].
  apply andb_true_iff in Hk as [_ He]. apply Nat.eqb_eq in He.
  unfold unregister, objects_get. rewrite Hget, Hone. simpl.
  pose proof (fun e => attendees_count_delete e db r Hnd Hr Hs) as Hcount.
  assert (Hevent : attendees_count event (delete r db) = attendees_count event db - 1).
  { rewrite (Hcount event), He, Nat.eqb_refl. lia. }
  split; [exact Hevent | split].
  - intros e Hne. rewrite (Hcount e).
    replace (event_id r =? pk e)%nat with false; [lia|].
    symmetry. apply Nat.eqb_neq. congruence.
  - intros m Hmax Hle. unfold is_full. rewrite Hmax, Hevent.
    destruct (attendees_count event db - 1 >=? m) eqn:E; [|reflexivity].
    apply Z.geb_le in E. lia.
Qed.

Lemma unregister_frees_seat_witness :
  attendees_count (meetup (Some 2))
    (snd (unregister bob 1 (store (Some 2) [row 1 2 1 confirmed])))
  = attendees_count (meetup (Some 2)) (store (Some 2) [row 1 2 1 confirmed]) - 1.
Proof.
  apply (unregister_frees_seat bob 1 (store (Some 2) [row 1 2 1 confirmed])
           (meetup (Some 2)) (row 1 2 1 confirmed) eq_refl rows_keyed_store_bob
           eq_refl eq_refl).
Defined.

(** *** What a successful register changes *)

(** X8. A register that succeeds raises the attendee count of the event
    and the registered-events count of the user by one each and makes
    [is_registered] true for the pair.  It leaves the attendee count of
    every other event, the registered-events count and the [is_registered]
    answers of every other user, and the organized-events count of
    everybody as they were. *)
Theorem register_counts (now : Z) (user : User) (key : nat) (db : Database)
    (event : Event) :
  get_object key db = Some event ->
  succeeded (fst (register now user key db)) = true ->
  attendees_count event (snd (register now user key db)) = attendees_count event db + 1
  /\ users.get_registered_events_count user (snd (register now user key db))
     = users.get_registered_events_count user db + 1
  /\ get_is_registered (Some user) event (snd (register now user key db)) = true
  /\ (forall e, pk e <> pk event ->
        attendees_count e (snd (register now user key db)) = attendees_count e db)
  /\ (forall u, id u <> id user ->
        users.get_registered_events_count u (snd (register now user key db))
        = users.get_registered_events_count u db
        /\ forall e, get_is_registered (Some u) e (snd (register now user key db))
                     = get_is_registered (Some u) e db)
  /\ (forall u, users.get_organized_events_count u (snd (register now user key db))
                = users.get_organized_events_count u db).
Proof.
  intros Hget Hok.
  destruct (register_succeeded now user key db Hok)
    as (event' & r & Hget' & _ & _ & _ & Hcreate & _).
  rewrite Hget in Hget'. injection Hget' as <-.
  apply objects_create_registrations in Hcreate
    as (Hrows & Hevents & _ & Huser & Hevent & Hstatus & _).
  set (db1 := snd (register now user key db)) in *.
  split; [now apply (attendees_count_snoc event db db1 r)|].
  split; [|split; [|split; [|split]]].
  - unfold users.get_registered_events_count, count, filter_status, filter_user.
    rewrite Hrows, !filter_app, length_app. simpl.
    rewrite Huser, Nat.eqb_refl. simpl. rewrite Hstatus. simpl. lia.
  - unfold get_is_registered, event_registrations. apply exists_true_iff.
    exists r. split.
    + apply filter_In. rewrite Hrows. split; [apply in_or_app; right; now left|].
      now apply Nat.eqb_eq.
    + rewrite Huser, Nat.eqb_refl, Hstatus. reflexivity.
  - intros e Hne. unfold attendees_count, event_registrations.
    rewrite Hrows, filter_app. simpl.
    replace (event_id r =? pk e)%nat with false
      by (symmetry; apply Nat.eqb_neq; congruence).
    now rewrite app_nil_r.
  - intros u Hne.
    assert (Hu : (user_id r =? id u)%nat = false)
      by (apply Nat.eqb_neq; congruence).
    split.
    + unfold users.get_registered_events_count, filter_user.
      rewrite Hrows, filter_app. simpl. rewrite Hu. now rewrite app_nil_r.
    + intros e. unfold get_is_registered, event_registrations.
      rewrite Hrows, filter_app. simpl.
      destruct (event_id r =? pk e)%nat; [|now rewrite app_nil_r].
      rewrite filter_app. simpl. rewrite Hu. simpl. now rewrite app_nil_r.
  - intros u. unfold users.get_organized_events_count. now rewrite Hevents.
Qed.

Lemma register_counts_witness :
  attendees_count (meetup (Some 2))
    (snd (register 50 carol 1 (store (Some 2) [row 1 2 1 confirmed])))
  = attendees_count (meetup (Some 2)) (store (Some 2) [row 1 2 1 confirmed]) + 1
  /\ users.get_registered_events_count carol
       (snd (register 50 carol 1 (store (Some 2) [row 1 2 1 confirmed])))
     = users.get_registered_events_count carol (store (Some 2) [row 1 2 1 confirmed]) + 1.
Proof.
  destruct (register_counts 50 carol 1 (store (Some 2) [row 1 2 1 confirmed])
              (meetup (Some 2)) eq_refl eq_refl) as (Hcount & Huser & _).
  split; [exact Hcount | exact Huser].
Defined.

(** *** What a successful create adds *)

Lemma errors_nil {backend : Backend} (now : Z) (body : EventData) :
  errors now body = [] ->
  now <= data_date body /\ (forall m, data_max_attendees body = Some m -> 0 < m).
Proof.
  intros Herr. unfold errors in Herr. rewrite date_messages in Herr.
  apply app_eq_nil in Herr as [_ Herr]. apply app_eq_nil in Herr as [_ Herr].
  apply app_eq_nil in Herr as [Hd Herr]. apply app_eq_nil in Herr as [_ Hc].
  split.
  - destruct (data_date body <? now) eqn:E; [discriminate | now apply Z.ltb_ge].
  - intros m Hm. destruct (Z_le_gt_dec m 0) as [Hle | Hgt]; [|lia].
    pose proof (capacity_messages m Hle) as Hin. rewrite <- Hm, Hc in Hin. destruct Hin.
Qed.

Lemma find_snoc {A} (f : A -> bool) (l : list A) (x : A) :
  find f (l ++ [x])
  = match find f l with
    | Some y => Some y
    | None => if f x then Some x else None
    end.
Proof.
  induction l as [|a l IH]; simpl; [reflexivity|].
  destruct (f a); [reflexivity | exact IH].
Qed.

(** X9. In a consistent store, the event a successful create answers with
    carries the next key of the sequence and the caller as organizer; it is
    what [get_object] finds under that key afterwards, while every other
    key finds what it found before; it passes [Event.clean] at the time of
    the call, has no attendee and is not full; and the organized-events
    count of the caller has grown by one. *)
Theorem create_fresh_event {backend : Backend} (now : Z) (user : User) (body : EventData)
    (db : Database)
    (event : Event) :
  consistent db ->
  fst (create now user body db)
    = Returns {| data := EventData_ event; status_code := HTTP_201_CREATED |} ->
  pk event = event_seq db
  /\ organizer event = id user
  /\ get_object (pk event) (snd (create now user body db)) = Some event
  /\ (forall key, key <> pk event ->
        get_object key (snd (create now user body db)) = get_object key db)
  /\ Event_clean now event = None
  /\ attendees_count event (snd (create now user body db)) = 0
  /\ is_full event (snd (create now user body db)) = false
  /\ users.get_organized_events_count user (snd (create now user body db))
     = users.get_organized_events_count user db + 1.
Proof.
  intros [_ He _ Hk _ _] Hret. unfold create in *.
  destruct (errors now body) eqn:Herr; [|discriminate].
  apply errors_nil in Herr as [Hdate Hseats].
  simpl in Hret. injection Hret as <-. simpl.
  assert (Hfresh : find (fun e => (pk e =? event_seq db)%nat) (events db) = None).
  { destruct (find _ (events db)) as [e|] eqn:E; [|reflexivity].
    apply find_some in E as [Hin Hpk]. apply Nat.eqb_eq in Hpk.
    specialize (Hk e Hin). lia. }
  assert (Hnone : forall r, In r (registrations db) -> (event_id r =? event_seq db)%nat = false).
  { intros r Hr. destruct (He r Hr) as [e [Hin Hpk]]. specialize (Hk e Hin).
    apply Nat.eqb_neq. lia. }
  assert (Hcount : forall e, pk e = event_seq db ->
            attendees_count e {| events := events db ++ [e];
                                 registrations := registrations db;
                                 event_seq := S (event_seq db);
                                 registration_seq := registration_seq db |} = 0).
  { intros e Hpk. unfold attendees_count, count, filter_status, event_registrations. simpl.
    rewrite Hpk.
    replace (filter (fun r => (event_id r =? event_seq db)%nat) (registrations db))
      with (@nil EventRegistration); [reflexivity|].
    symmetry. destruct (filter _ (registrations db)) as [|x q] eqn:E; [reflexivity|].
    first_of_filter E x Hx Hsat. rewrite (Hnone x Hx) in Hsat. discriminate. }
  repeat split.
  - unfold get_object, events_get. simpl. rewrite find_snoc, Hfresh. simpl.
    now rewrite Nat.eqb_refl.
  - intros key Hne. unfold get_object, events_get. simpl. rewrite find_snoc.
    destruct (find (fun e => (pk e =? key)%nat) (events db)); [reflexivity|]. simpl.
    replace (event_seq db =? key)%nat with false; [reflexivity|].
    symmetry. apply Nat.eqb_neq. congruence.
  - unfold Event_clean. simpl. apply Z.ltb_ge in Hdate. now rewrite Hdate.
  - now apply Hcount.
  - unfold is_full. simpl. destruct (data_max_attendees body) as [m|] eqn:Hm; [|reflexivity].
    rewrite Hcount by reflexivity. specialize (Hseats m eq_refl).
    destruct (0 >=? m) eqn:E; [apply Z.geb_le in E; lia | reflexivity].
  - unfold users.get_organized_events_count, count. simpl.
    rewrite filter_app, length_app. simpl. rewrite Nat.eqb_refl. simpl. lia.
Qed.

Lemma create_fresh_event_witness :
  exists event,
    fst (create (backend := sample_backend) 50 bob (body 100 (Some 3)) (store (Some 1) [row 1 2 1 confirmed]))
      = Returns {| data := EventData_ event; status_code := HTTP_201_CREATED |}
    /\ pk event = 2%nat
    /\ get_object 2 (snd (create (backend := sample_backend) 50 bob (body 100 (Some 3))
                            (store (Some 1) [row 1 2 1 confirmed]))) = Some event
    /\ is_full event (snd (create (backend := sample_backend) 50 bob (body 100 (Some 3))
                             (store (Some 1) [row 1 2 1 confirmed]))) = false.
Proof.
  eexists. split; [reflexivity|].
  assert (Hc : consistent (store (Some 1) [row 1 2 1 confirmed])).
  { constructor; unfold_store_properties; simpl.
    - repeat constructor. intros [].
    - intros r [<- | []]. exists (meetup (Some 1)). split; [now left | reflexivity].
    - intros r e [<- | []] [<- | []] _. simpl. discriminate.
    - intros e [<- | []]. simpl. lia.
    - repeat constructor. intros [].
    - intros r [<- | []]. reflexivity. }
  destruct (create_fresh_event (backend := sample_backend) 50 bob (body 100 (Some 3))
              (store (Some 1) [row 1 2 1 confirmed]) _ Hc eq_refl)
    as (Hpk & _ & Hget & _ & _ & _ & Hfull & _).
  split; [exact Hpk | split; [exact Hget | exact Hfull]].
Defined.

(** *** The two senders *)



(** *** Requests that run at the same time *)

Lemma step_appends now t db :
  events (snd (interleaving.step now t db)) = events db
  /\ exists added,
       registrations (snd (interleaving.step now t db)) = registrations db ++ added
       /\ Forall (fun r => status r = confirmed) added.
Proof.
  destruct t as [user key | user event | user event | user event | o]; simpl.
  - destruct (get_object key db) as [event|];
      [destruct (organizer event =? id user)%nat|];
      (split; [reflexivity | exists []; rewrite app_nil_r; auto]).
  - destruct (exists_ (objects_filter user event db));
      (split; [reflexivity | exists []; rewrite app_nil_r; auto]).
  - destruct (is_full event db);
      (split; [reflexivity | exists []; rewrite app_nil_r; auto]).
  - destruct (objects_create now user event confirmed db) as [[r db']|] eqn:Hc.
    + apply objects_create_registrations in Hc as (Hrows & Hevents & _ & _ & _ & Hs & _).
      simpl. split; [exact Hevents | exists [r]; auto].
    + split; [reflexivity | exists []; rewrite app_nil_r; auto].
  - split; [reflexivity | exists []; rewrite app_nil_r; auto].
Qed.

(** X11. However the statements of concurrent register requests are
    interleaved, the store keeps its unique constraint, the event table is
    not touched, no existing registration is removed or rewritten, and
    every row that was added is confirmed. *)
Theorem interleaved_registers_sound (now : Z) (schedule : list nat)
    (tasks : list interleaving.Task) (db : Database) :
  unique_together db ->
  unique_together (snd (interleaving.run now schedule tasks db))
  /\ events (snd (interleaving.run now schedule tasks db)) = events db
  /\ exists added,
       registrations (snd (interleaving.run now schedule tasks db))
         = registrations db ++ added
       /\ Forall (fun r => status r = confirmed) added.
Proof.
  revert tasks db. induction schedule as [|i schedule IH]; intros tasks db Hu.
  - simpl. split; [exact Hu | split; [reflexivity | exists []; rewrite app_nil_r; auto]].
  - simpl. destruct (nth_error tasks i) as [t|]; [|now apply IH].
    pose proof (unique_together_step now t db Hu) as Hstep.
    destruct (step_appends now t db) as (Hev & added1 & Hrows1 & Hok1).
    destruct (interleaving.step now t db) as [t' db']. simpl in *.
    destruct (IH (interleaving.set_nth i t' tasks) db' Hstep)
      as (Hu' & Hev' & added2 & Hrows2 & Hok2).
    split; [exact Hu' | split; [congruence|]].
    exists (added1 ++ added2). split.
    + rewrite Hrows2, Hrows1, app_assoc. reflexivity.
    + apply Forall_app. auto.
Qed.

Lemma unique_together_empty_store : unique_together (store (Some 1) []).
Proof. unfold unique_together; simpl. constructor. Qed.

Lemma interleaved_registers_sound_witness :
  unique_together (snd (interleaving.run 50 race_schedule race_tasks (store (Some 1) [])))
  /\ events (snd (interleaving.run 50 race_schedule race_tasks (store (Some 1) [])))
     = [meetup (Some 1)].
Proof.
  destruct (interleaved_registers_sound 50 race_schedule race_tasks (store (Some 1) [])
              unique_together_empty_store) as (Hu & Hev & _).
  split; [exact Hu | exact Hev].
Defined.

(** *** Statuses the API produces *)

Lemma filter_all {A} (f : A -> bool) (l : list A) :
  (forall x, In x l -> f x = true) -> filter f l = l.
Proof.
  induction l as [|a l IH]; simpl; intros H; [reflexivity|].
  rewrite (H a (or_introl eq_refl)). f_equal. apply IH. intros x Hx. apply H. now right.
Qed.

(** X12. No request of the API produces a row that is cancelled or on the
    waitlist: in every store the API reaches all rows are confirmed, so
    [is_registered] is true for a user and an event exactly when a row of
    the pair exists, the attendee count of an event is the number of its
    rows, and the registered-events count of a user is the number of the
    user's rows. *)
Theorem reachable_rows_confirmed {backend : Backend} (db : Database) :
  reachable db ->
  (forall r, In r (registrations db) -> status r = confirmed)
  /\ (forall user event,
        get_is_registered (Some user) event db = exists_ (objects_filter user event db))
  /\ (forall event, attendees_count event db = count (event_registrations event db))
  /\ (forall user, users.get_registered_events_count user db
                   = count (filter_user user (registrations db))).
Proof.
  intros Hreach. apply reachable_consistent in Hreach.
  pose proof (consistent_status db Hreach) as Hs. unfold all_confirmed in Hs.
  split; [exact Hs | split; [|split]].
  - intros user event. apply eq_true_iff_eq.
    unfold get_is_registered, event_registrations, objects_filter.
    rewrite !exists_true_iff. split.
    + intros [r [Hr Hsat]]. apply filter_In in Hr as [Hr He].
      apply andb_true_iff in Hsat as [Hu _].
      exists r. split; [exact Hr | now rewrite Hu, He].
    + intros [r [Hr Hsat]]. apply andb_true_iff in Hsat as [Hu He].
      exists r. split; [apply filter_In; auto|].
      rewrite Hu, (Hs r Hr). reflexivity.
  - intros event. unfold attendees_count, filter_status. f_equal. apply filter_all.
    intros r Hr. unfold event_registrations in Hr. apply filter_In in Hr as [Hr _].
    now rewrite (Hs r Hr).
  - intros user. unfold users.get_registered_events_count, filter_status. f_equal.
    apply filter_all. intros r Hr. unfold filter_user in Hr.
    apply filter_In in Hr as [Hr _]. now rewrite (Hs r Hr).
Qed.

Lemma reachable_rows_confirmed_witness :
  get_is_registered (Some bob) (meetup (Some 1)) after_two_requests
  = exists_ (objects_filter bob (meetup (Some 1)) after_two_requests).
Proof.
  destruct (reachable_rows_confirmed (backend := sample_backend) after_two_requests)
    as (_ & Hreg & _).
  { apply reachable_step, reachable_step, reachable_empty. }
  apply Hreg.
Defined.

(** *** Capacity as an invariant *)

Lemma length_filter_filter_le {A} (f h g : A -> bool) (l : list A) :
  (List.length (filter f (filter h (filter g l))) <= List.length (filter f (filter h l)))%nat.
Proof.
  induction l as [|a l IH]; simpl; [lia|].
  destruct (g a); simpl; destruct (h a); simpl; destruct (f a); simpl; lia.
Qed.

Lemma attendees_count_filter_le (g : EventRegistration -> bool) (e : Event) (db : Database) :
  attendees_count e (set_registrations (filter g (registrations db)) db)
  <= attendees_count e db.
Proof.
  unfold attendees_count, count, filter_status, event_registrations. simpl.
  apply inj_le. apply length_filter_filter_le.
Qed.

Lemma attendees_count_other_event (e : Event) (db db' : Database) (r : EventRegistration) :
  registrations db' = registrations db ++ [r] -> event_id r <> pk e ->
  attendees_count e db' = attendees_count e db.
Proof.
  intros Hrows Hne. unfold attendees_count, event_registrations.
  rewrite Hrows, filter_app. simpl.
  replace (event_id r =? pk e)%nat with false by (symmetry; now apply Nat.eqb_neq).
  now rewrite app_nil_r.
Qed.

Lemma within_capacity_create {backend : Backend} now user body db :
  consistent db -> within_capacity db ->
  within_capacity (snd (create now user body db)).
Proof.
  intros [_ He _ Hk _ _] Hcap. unfold create.
  destruct (errors now body) eqn:Herr; [|exact Hcap].
  apply errors_nil in Herr as [_ Hseats].
  intros e m Hin Hmax. simpl in Hin. apply in_app_or in Hin as [Hin | [<- | []]].
  - change (attendees_count e db <= m). now apply Hcap.
  - simpl in Hmax. specialize (Hseats m Hmax).
    unfold attendees_count, count, filter_status, event_registrations. simpl.
    replace (filter (fun r => (event_id r =? event_seq db)%nat) (registrations db))
      with (@nil EventRegistration); [simpl; lia|].
    symmetry. destruct (filter _ (registrations db)) as [|x q] eqn:E; [reflexivity|].
    first_of_filter E x Hx Hsat. apply Nat.eqb_eq in Hsat.
    destruct (He x Hx) as [e' [Hin' Hpk]]. specialize (Hk e' Hin'). lia.
Qed.

Lemma within_capacity_partial_update {backend : Backend} now user key patch db :
  consistent db -> within_capacity db ->
  patch_max_attendees patch = None ->
  within_capacity (snd (partial_update now user key patch db)).
Proof.
  intros Hc Hcap Hpatch. unfold partial_update.
  destruct (get_object key db) as [instance|] eqn:Hget; [|exact Hcap].
  destruct (negb (IsOrganizerOrReadOnly user instance)); [exact Hcap|].
  destruct (patch_errors now patch); [|exact Hcap].
  apply get_object_In in Hget as [Hinst Hkey].
  intros e' m Hin Hmax. simpl in Hin. apply in_map_iff in Hin as [e [<- Hin]].
  destruct (pk e =? key)%nat eqn:E.
  - apply Nat.eqb_eq in E.
    assert (e = instance)
      by (apply (NoDup_map_inj_in pk (events db));
          [exact (consistent_keys_unique db Hc) | exact Hin | exact Hinst | congruence]).
    subst e. unfold apply_patch in Hmax. simpl in Hmax. rewrite Hpatch in Hmax.
    change (attendees_count instance db <= m). now apply Hcap.
  - change (attendees_count e db <= m). now apply Hcap.
Qed.

Lemma within_capacity_destroy user key db :
  within_capacity db -> within_capacity (snd (destroy user key db)).
Proof.
  intros Hcap. unfold destroy.
  destruct (get_object key db) as [instance|]; [|exact Hcap].
  destruct (negb (IsOrganizerOrReadOnly user instance)); [exact Hcap|].
  intros e m Hin Hmax. simpl in Hin. apply filter_In in Hin as [Hin _].
  pose proof (attendees_count_filter_le (fun r => negb (event_id r =? key)%nat) e db) as Hle.
  specialize (Hcap e m Hin Hmax).
  unfold attendees_count, event_registrations in *. simpl in *. lia.
Qed.

Lemma within_capacity_register now user key db :
  consistent db -> within_capacity db ->
  within_capacity (snd (register now user key db)).
Proof.
  intros Hc Hcap.
  destruct (succeeded (fst (register now user key db))) eqn:Hok.
  - destruct (register_succeeded now user key db Hok)
      as (event & r & Hget & _ & _ & Hroom & Hcreate & _).
    apply objects_create_registrations in Hcreate
      as (Hrows & Hevents & _ & _ & Hevent & Hstatus & _).
    apply get_object_In in Hget as [Hin Hkey].
    intros e m He Hmax. rewrite Hevents in He.
    destruct (Nat.eq_dec (pk e) (pk event)) as [Heq | Hne].
    + assert (e = event)
        by (apply (NoDup_map_inj_in pk (events db));
            [exact (consistent_keys_unique db Hc) | exact He | exact Hin | exact Heq]).
      subst e.
      rewrite (attendees_count_snoc event db _ r Hrows Hevent Hstatus).
      unfold is_full in Hroom. rewrite Hmax in Hroom.
      destruct (attendees_count event db >=? m) eqn:E; [discriminate|].
      assert (~ m <= attendees_count event db) by (rewrite <- Z.geb_le; congruence).
      lia.
    + rewrite (attendees_count_other_event e db _ r Hrows); [now apply Hcap | congruence].
  - rewrite register_failed_unchanged; [exact Hcap|]. unfold failed. now rewrite Hok.
Qed.

Lemma within_capacity_unregister user key db :
  within_capacity db -> within_capacity (snd (unregister user key db)).
Proof.
  intros Hcap. unfold unregister.
  destruct (get_object key db) as [event|]; [|exact Hcap].
  destruct (objects_get user event db) as [r| |]; [|exact Hcap|exact Hcap].
  intros e m Hin Hmax. simpl in Hin.
  pose proof (attendees_count_filter_le
                (fun r' => negb (registration_pk r' =? registration_pk r)%nat) e db) as Hle.
  specialize (Hcap e m Hin Hmax).
  unfold attendees_count, event_registrations in *. simpl in *. lia.
Qed.

(** X13. In a consistent store where no event holds more confirmed
    registrations than its [max_attendees], every request that runs alone
    keeps it so, except a patch that sends [max_attendees]: create,
    destroy, register, unregister and the patches of other fields never
    take an event above its capacity. *)
Theorem capacity_is_kept {backend : Backend} (now : Z) (request : Request) (db : Database) :
  consistent db ->
  within_capacity db ->
  keeps_capacity request = true ->
  within_capacity (snd (dispatch now request db)).
Proof.
  intros Hc Hcap Hkeep.
  destruct request as [user body | user key patch | user key | user key | user key];
    simpl in *.
  - now apply within_capacity_create.
  - apply within_capacity_partial_update; auto.
    destruct (patch_max_attendees patch); [discriminate | reflexivity].
  - now apply within_capacity_destroy.
  - now apply within_capacity_register.
  - now apply within_capacity_unregister.
Qed.

Lemma capacity_is_kept_witness :
  within_capacity
    (snd (dispatch (backend := sample_backend) 30 (POST_register bob 1)
            (snd (dispatch (backend := sample_backend) 10
                    (POST_events alice (body 100 (Some 1))) empty_database)))).
Proof.
  apply capacity_is_kept; [| | reflexivity].
  - apply consistent_dispatch, consistent_empty.
  - apply capacity_is_kept; [apply consistent_empty | | reflexivity].
    intros e m [].
Defined.

(** *** The attendee list *)

Lemma NoDup_users_of_event (k : nat) (rows : list EventRegistration) :
  NoDup (map key_of rows) ->
  NoDup (map user_id (filter (fun r => (event_id r =? k)%nat) rows)).
Proof.
  induction rows as [|a rows IH]; simpl; intros Hnd; [constructor|].
  inversion Hnd as [|? ? Hnotin Hrest]; subst.
  destruct (event_id a =? k)%nat eqn:E; [|auto]. simpl. constructor; [|auto].
  intros Hin. apply Hnotin. apply in_map_iff in Hin as [x [Hu Hx]].
  apply filter_In in Hx as [Hx Hk]. apply Nat.eqb_eq in E, Hk.
  apply in_map_iff. exists x. split; [|exact Hx]. unfold key_of. congruence.
Qed.

(** X14. Whatever order the store returns the rows in, and for a user
    table that resolves each key to the user with that id: the attendee
    list has as many entries as [attendees_count] says; it lists a user
    exactly when [is_registered] is true for that user; the list of the
    detail serializer is the list of the attendees view; and in a store
    that keeps the unique constraint no user is listed twice. *)
Theorem attendees_agree (order_by : list EventRegistration -> list EventRegistration)
    (User_objects_get : nat -> User) (event : Event) (db : Database) :
  (forall rows, Permutation (order_by rows) rows) ->
  (forall n, id (User_objects_get n) = n) ->
  count (attendee_list.attendees order_by User_objects_get event db)
    = attendees_count event db
  /\ (forall u, In (id u) (map id (attendee_list.attendees order_by User_objects_get event db))
                <-> get_is_registered (Some u) event db = true)
  /\ attendee_list.get_attendees order_by User_objects_get event db
     = attendee_list.attendees order_by User_objects_get event db
  /\ (unique_together db ->
      NoDup (map id (attendee_list.attendees order_by User_objects_get event db))).
Proof.
  intros Hperm Hid.
  assert (Hids : map id (attendee_list.attendees order_by User_objects_get event db)
                 = map user_id (attendee_list.confirmed_registrations order_by event db)).
  { unfold attendee_list.attendees. rewrite map_map. apply map_ext. intros r. apply Hid. }
  pose proof (Hperm (filter_status confirmed (event_registrations event db))) as Hp.
  fold (attendee_list.confirmed_registrations order_by event db) in Hp.
  split; [|split; [|split]].
  - unfold count, attendee_list.attendees, attendees_count, count.
    rewrite length_map. f_equal. now apply Permutation_length.
  - intros u. rewrite Hids. unfold get_is_registered. rewrite exists_true_iff. split.
    + intros Hin. apply in_map_iff in Hin as [r [Hu Hr]].
      apply (Permutation_in _ Hp) in Hr. unfold filter_status in Hr.
      apply filter_In in Hr as [Hr Hs].
      exists r. split; [exact Hr|]. rewrite Hu, Nat.eqb_refl, Hs. reflexivity.
    + intros [r [Hr Hsat]]. apply andb_true_iff in Hsat as [Hu Hs].
      apply Nat.eqb_eq in Hu. apply in_map_iff. exists r. split; [exact Hu|].
      apply (Permutation_in _ (Permutation_sym Hp)).
      unfold filter_status. apply filter_In. auto.
  - reflexivity.
  - intros Hu. rewrite Hids.
    apply (Permutation_NoDup (Permutation_map user_id (Permutation_sym Hp))).
    unfold filter_status. apply NoDup_map_filter.
    unfold event_registrations. now apply NoDup_users_of_event.
Qed.

Lemma attendees_agree_witness :
  count (attendee_list.attendees (fun rows => rev rows) sample_user (meetup None)
           (store None [row 1 2 1 confirmed; row 2 3 1 cancelled; row 3 4 1 confirmed]))
  = attendees_count (meetup None)
      (store None [row 1 2 1 confirmed; row 2 3 1 cancelled; row 3 4 1 confirmed]).
Proof.
  apply (attendees_agree (fun rows => rev rows) sample_user (meetup None)
           (store None [row 1 2 1 confirmed; row 2 3 1 cancelled; row 3 4 1 confirmed])).
  - intros rows. apply Permutation_sym, Permutation_rev.
  - reflexivity.
Defined.

(** *** A seat changes hands *)

(** X15. In a store with unique registration keys, let an event with
    [max_attendees = m] hold at most [m] attendees, one of them a user
    whose one row for the event is confirmed.  After that user
    unregisters, a register by any other user who is not the organizer and
    has no row for the event succeeds. *)
Theorem seat_handover (now : Z) (leaving joining : User) (key : nat) (db : Database)
    (event : Event) (r : EventRegistration) (m : Z) :
  get_object key db = Some event ->
  rows_keyed db ->
  max_attendees event = Some m ->
  attendees_count event db <= m ->
  objects_filter leaving event db = [r] ->
  status r = confirmed ->
  organizer event <> id joining ->
  exists_ (objects_filter joining event db) = false ->
  succeeded (fst (unregister leaving key db)) = true
  /\ succeeded (fst (register now joining key (snd (unregister leaving key db)))) = true.
Proof.
  intros Hget [Hnd _] Hmax Hle Hone Hs Howner Hfree.
  assert (Hr : In r (objects_filter leaving event db)) by (rewrite Hone; now left).
  unfold objects_filter in Hr. apply filter_In in Hr as [Hr Hk].
  apply andb_true_iff in Hk as [_ He].
  unfold unregister, objects_get. rewrite Hget, Hone. simpl.
  split; [reflexivity|].
  apply (register_eligible now joining key (delete r db) event).
  - rewrite (get_object_same_events key db (delete r db) eq_refl). exact Hget.
  - exact Howner.
  - apply exists_false_iff. intros x Hx. unfold delete in Hx. simpl in Hx.
    apply filter_In in Hx as [Hx _].
    unfold objects_filter in Hfree. now apply (proj1 (exists_false_iff _ _) Hfree).
  - pose proof (attendees_count_delete event db r Hnd Hr Hs) as Hcount.
    rewrite He in Hcount.
    unfold is_full. rewrite Hmax.
    destruct (attendees_count event (delete r db) >=? m) eqn:E; [|reflexivity].
    apply Z.geb_le in E. lia.
Qed.

Lemma rows_keyed_full_meetup : rows_keyed (store (Some 1) [row 1 2 1 confirmed]).
Proof.
  split; simpl; [repeat constructor; intros [] | intros r [<- | []]; simpl; lia].
Qed.

(** The meetup has one seat and bob holds it: carol is refused, bob
    leaves, carol gets in. *)
Lemma seat_handover_witness :
  fst (register 50 carol 1 (store (Some 1) [row 1 2 1 confirmed])) = CapacityExceeded
  /\ succeeded (fst (unregister bob 1 (store (Some 1) [row 1 2 1 confirmed]))) = true
  /\ succeeded
       (fst (register 60 carol 1
               (snd (unregister bob 1 (store (Some 1) [row 1 2 1 confirmed]))))) = true.
Proof.
  split; [reflexivity|].
  apply (seat_handover 60 bob carol 1 (store (Some 1) [row 1 2 1 confirmed])
           (meetup (Some 1)) (row 1 2 1 confirmed) 1 eq_refl rows_keyed_full_meetup
           eq_refl);
    try reflexivity.
  vm_compute. discriminate.
Defined.

(** *** Server errors *)

(** X16. A register that runs alone never ends in the [IntegrityError] of
    the unique constraint: the duplicate check of the view has ruled it
    out before the insert.  In a store that keeps the unique constraint,
    unregister never ends in [MultipleObjectsReturned].  So neither view
    answers with a server error, and each of their outcomes is a 2xx
    response, a 400 response or [Http404]. *)
Theorem no_server_errors (now : Z) (user : User) (key : nat) (db : Database) :
  fst (register now user key db) <> Raises IntegrityError
  /\ (unique_together db -> fst (unregister user key db) <> Raises MultipleObjects)
  /\ (forall exc, fst (register now user key db) = Raises exc -> exc = Http404)
  /\ (unique_together db ->
      forall exc, fst (unregister user key db) = Raises exc -> exc = Http404).
Proof.
  assert (Hreg : forall exc, fst (register now user key db) = Raises exc -> exc = Http404).
  { unfold register.
    destruct (get_object key db) as [event|]; [|intros exc [= <-]; reflexivity].
    destruct (organizer event =? id user)%nat; [discriminate|].
    destruct (exists_ (objects_filter user event db)) eqn:He; [discriminate|].
    destruct (is_full event db); [discriminate|].
    destruct (objects_create_free now user event confirmed db He) as [r [db' ->]].
    discriminate. }
  assert (Hun : unique_together db ->
                forall exc, fst (unregister user key db) = Raises exc -> exc = Http404).
  { intros Hu. unfold unregister, objects_get.
    destruct (get_object key db) as [event|]; [|intros exc [= <-]; reflexivity].
    destruct (objects_filter user event db) as [|x [|y q]] eqn:E; [discriminate.. |].
    exfalso.
    assert (Hx : In x (objects_filter user event db)) by (rewrite E; now left).
    unfold objects_filter in Hx. apply filter_In in Hx as [Hx Hk].
    apply andb_true_iff in Hk as [Hxu Hxe]. apply Nat.eqb_eq in Hxu, Hxe.
    rewrite (unique_objects_filter user event db x Hu Hx Hxu Hxe) in E. discriminate. }
  split; [|split; [|split]].
  - intros H. specialize (Hreg _ H). discriminate.
  - intros Hu H. specialize (Hun Hu _ H). discriminate.
  - exact Hreg.
  - exact Hun.
Qed.

Lemma no_server_errors_witness :
  fst (unregister bob 1 (store (Some 1) [row 1 2 1 confirmed])) <> Raises MultipleObjects.
Proof.
  apply (no_server_errors 50 bob 1 (store (Some 1) [row 1 2 1 confirmed])).
  exact unique_together_store_bob.
Defined.

(** *** Filling an event *)

(** X17. Let an event have [max_attendees = n], and let users with
    different ids, none of them the organizer and none with a row for the
    event, register one after the other while the attendees already there
    and the callers together do not exceed [n].  Then every call succeeds
    and the attendee count grows by the number of calls; when that reaches
    [n], the event is full. *)
Theorem seats_fill (calls : list (Z * User)) (key : nat) (db : Database)
    (event : Event) (n : Z) :
  get_object key db = Some event ->
  max_attendees event = Some n ->
  NoDup (map (fun c => id (snd c)) calls) ->
  (forall c, In c calls ->
     organizer event <> id (snd c) /\ exists_ (objects_filter (snd c) event db) = false) ->
  attendees_count event db + Z.of_nat (List.length calls) <= n ->
  forallb succeeded (fst (register_all calls key db)) = true
  /\ attendees_count event (snd (register_all calls key db))
     = attendees_count event db + Z.of_nat (List.length calls)
  /\ (attendees_count event db + Z.of_nat (List.length calls) = n ->
      is_full event (snd (register_all calls key db)) = true).
Proof.
  intros Hget Hmax Hnd Hel Hroom.
  pose proof (register_all_succeed calls key db event n Hget Hmax Hnd Hel Hroom) as Hok.
  destruct (register_all calls key db) as [outs db'] eqn:Hall. simpl in *.
  destruct (register_all_count calls key db event outs db' Hget Hall Hok) as [_ Hcount].
  split; [exact Hok | split; [exact Hcount|]].
  intros Hn. unfold is_full. rewrite Hmax, Hcount. apply Z.geb_le. lia.
Qed.

Lemma seats_fill_witness :
  forallb succeeded (fst (register_all [(30, bob); (31, carol)] 1 (store (Some 2) []))) = true
  /\ is_full (meetup (Some 2))
       (snd (register_all [(30, bob); (31, carol)] 1 (store (Some 2) []))) = true.
Proof.
  destruct (seats_fill [(30, bob); (31, carol)] 1 (store (Some 2) []) (meetup (Some 2)) 2
              eq_refl eq_refl) as (Hok & _ & Hfull).
  - simpl. repeat constructor; simpl; intuition discriminate.
  - intros c [<- | [<- | []]]; simpl; split; try reflexivity; discriminate.
  - vm_compute. discriminate.
  - split; [exact Hok | apply Hfull; reflexivity].
Defined.
